(** * The dashboard's JSON-RPC client: [MCPWebSocketService]

    A shallow embedding of
    [dashboard/src/services/MCPWebSocketService.ts]: the class fields
    become the first seven fields of [state], the browser objects the
    class talks to (WebSocket instances, promises, timers, the console,
    the subscriber callbacks) become the remaining fields, and every
    method and event handler becomes a function on [state].

    Modelling conventions.
    - A JavaScript number that is only ever used as an integer counter
      or as a millisecond delay is a [Z].
    - A JavaScript value read out of a parsed frame is an [option json];
      [None] is [undefined].
    - A promise is a cell of a store; [resolve] and [reject] write the
      cell only while it is [Pending], as the language does.
    - Subscriber callbacks are opaque: a callback is a [nat] naming the
      function, calling it appends to the [invoked] log, and it returns
      normally without calling back into the service.
    - The promise an [async] API method returns is identified with the
      promise of the [sendRequest] call it wraps. *)

From Stdlib Require Import ZArith QArith_base Lia.
From stdpp Require Import gmap strings list fin_maps.

Local Open Scope Z_scope.

(** ** Parsed JSON

    What [JSON.parse] can return. A number is either an integer, [JNum],
    or a number that is not an integer, [JFrac]: the latter is never
    zero and never equal to a request id. *)

#[local] Unset Elimination Schemes.
Inductive json : Type :=
| JNull
| JBool (b : bool)
| JNum (n : Z)
| JFrac (q : Q)
| JStr (s : string)
| JArr (items : list json)
| JObj (members : list (string * json)).
#[local] Set Elimination Schemes.

(** ToBoolean on a value that came out of [JSON.parse]. *)
Definition truthy (v : option json) : bool :=
  match v with
  | None | Some JNull => false
  | Some (JBool b) => b
  | Some (JNum n) => negb (n =? 0)
  | Some (JStr s) => negb (String.eqb s "")
  | Some (JFrac _) | Some (JArr _) | Some (JObj _) => true
  end.

Fixpoint member (k : string) (ms : list (string * json)) : option json :=
  match ms with
  | [] => None
  | (k', v) :: ms => if String.eqb k k' then Some v else member k ms
  end.

(** [v.k] for a [v] that is neither [null] nor [undefined]: only objects
    carry the members the service reads. *)
Definition prop (v : json) (k : string) : option json :=
  match v with
  | JObj ms => member k ms
  | _ => None
  end.

(** The key a value denotes in a [Map<number, _>]. *)
Definition number_key (v : option json) : option Z :=
  match v with
  | Some (JNum n) => Some n
  | _ => None
  end.

(** The key a value denotes in a [Map<string, _>]. *)
Definition string_key (v : option json) : option string :=
  match v with
  | Some (JStr s) => Some s
  | _ => None
  end.

(** ** Browser objects *)

Inductive readyState : Type := CONNECTING | OPEN | CLOSING | CLOSED.

Global Instance readyState_eq_dec : EqDecision readyState.
Proof. solve_decision. Defined.

Inductive js_error : Type :=
| NewError (message : option json)   (* new Error(message) *)
| ErrorEvent (socket : nat)          (* the event handed to onerror *)
| ConstructorThrew.                  (* new WebSocket(url) threw *)

Inductive promise : Type :=
| Pending
| Fulfilled (value : option json)
| Rejected (reason : js_error).

(** The promise made by one call of [connect]; [c_caught] records the
    [.catch(console.error)] attached by the reconnect timer. *)
Record connect_promise : Type := {
  c_state : promise;
  c_caught : bool
}.

(** A WebSocket instance together with the promise its handlers close
    over. *)
Record socket : Type := {
  sk_ready : readyState;
  sk_promise : nat
}.

Inductive timer_action : Type :=
| RequestTimeout (id : Z) (p : nat)   (* the closure of sendRequest *)
| Reconnect.                          (* the closure of handleReconnect *)

Record timer : Type := {
  t_delay : Z;
  t_due : Z;
  t_action : timer_action
}.

Record request : Type := {
  req_id : Z;
  req_method : string;
  req_params : json
}.

Inductive console_entry : Type :=
| console_log (text : string)
| console_log_reconnect (delay attempt max : Z)
| console_error (text : string)
| console_error_reason (text : string) (reason : js_error).

(** ** The service and its environment *)

Record state : Type := {
  (* private fields of MCPWebSocketService *)
  ws : option nat;
  requestId : Z;
  pendingRequests : gmap Z nat;
  subscriptions : gmap string nat;
  reconnectTimeout : option nat;
  maxReconnectAttempts : Z;
  reconnectAttempts : Z;
  (* the environment *)
  url_valid : bool;
  sockets : list socket;
  connects : list connect_promise;
  promises : list promise;
  timers : gmap nat timer;
  next_timer : nat;
  clock : Z;
  sent : list (nat * request);
  invoked : list (nat * option json);
  console : list console_entry
}.

Definition init (url_ok : bool) : state := {|
  ws := None;
  requestId := 0;
  pendingRequests := ∅;
  subscriptions := ∅;
  reconnectTimeout := None;
  maxReconnectAttempts := 5;
  reconnectAttempts := 0;
  url_valid := url_ok;
  sockets := [];
  connects := [];
  promises := [];
  timers := ∅;
  next_timer := 1;
  clock := 0;
  sent := [];
  invoked := [];
  console := []
|}.

(** *** Field updates *)

Definition set_ws (x : option nat) (s : state) : state :=
  {| ws := x; requestId := requestId s; pendingRequests := pendingRequests s;
     subscriptions := subscriptions s; reconnectTimeout := reconnectTimeout s;
     maxReconnectAttempts := maxReconnectAttempts s;
     reconnectAttempts := reconnectAttempts s; url_valid := url_valid s;
     sockets := sockets s; connects := connects s; promises := promises s;
     timers := timers s; next_timer := next_timer s; clock := clock s;
     sent := sent s; invoked := invoked s; console := console s |}.

Definition set_requestId (x : Z) (s : state) : state :=
  {| ws := ws s; requestId := x; pendingRequests := pendingRequests s;
     subscriptions := subscriptions s; reconnectTimeout := reconnectTimeout s;
     maxReconnectAttempts := maxReconnectAttempts s;
     reconnectAttempts := reconnectAttempts s; url_valid := url_valid s;
     sockets := sockets s; connects := connects s; promises := promises s;
     timers := timers s; next_timer := next_timer s; clock := clock s;
     sent := sent s; invoked := invoked s; console := console s |}.

Definition set_pendingRequests (x : gmap Z nat) (s : state) : state :=
  {| ws := ws s; requestId := requestId s; pendingRequests := x;
     subscriptions := subscriptions s; reconnectTimeout := reconnectTimeout s;
     maxReconnectAttempts := maxReconnectAttempts s;
     reconnectAttempts := reconnectAttempts s; url_valid := url_valid s;
     sockets := sockets s; connects := connects s; promises := promises s;
     timers := timers s; next_timer := next_timer s; clock := clock s;
     sent := sent s; invoked := invoked s; console := console s |}.

Definition set_subscriptions (x : gmap string nat) (s : state) : state :=
  {| ws := ws s; requestId := requestId s; pendingRequests := pendingRequests s;
     subscriptions := x; reconnectTimeout := reconnectTimeout s;
     maxReconnectAttempts := maxReconnectAttempts s;
     reconnectAttempts := reconnectAttempts s; url_valid := url_valid s;
     sockets := sockets s; connects := connects s; promises := promises s;
     timers := timers s; next_timer := next_timer s; clock := clock s;
     sent := sent s; invoked := invoked s; console := console s |}.

Definition set_reconnectTimeout (x : option nat) (s : state) : state :=
  {| ws := ws s; requestId := requestId s; pendingRequests := pendingRequests s;
     subscriptions := subscriptions s; reconnectTimeout := x;
     maxReconnectAttempts := maxReconnectAttempts s;
     reconnectAttempts := reconnectAttempts s; url_valid := url_valid s;
     sockets := sockets s; connects := connects s; promises := promises s;
     timers := timers s; next_timer := next_timer s; clock := clock s;
     sent := sent s; invoked := invoked s; console := console s |}.

Definition set_reconnectAttempts (x : Z) (s : state) : state :=
  {| ws := ws s; requestId := requestId s; pendingRequests := pendingRequests s;
     subscriptions := subscriptions s; reconnectTimeout := reconnectTimeout s;
     maxReconnectAttempts := maxReconnectAttempts s;
     reconnectAttempts := x; url_valid := url_valid s;
     sockets := sockets s; connects := connects s; promises := promises s;
     timers := timers s; next_timer := next_timer s; clock := clock s;
     sent := sent s; invoked := invoked s; console := console s |}.

Definition set_sockets (x : list socket) (s : state) : state :=
  {| ws := ws s; requestId := requestId s; pendingRequests := pendingRequests s;
     subscriptions := subscriptions s; reconnectTimeout := reconnectTimeout s;
     maxReconnectAttempts := maxReconnectAttempts s;
     reconnectAttempts := reconnectAttempts s; url_valid := url_valid s;
     sockets := x; connects := connects s; promises := promises s;
     timers := timers s; next_timer := next_timer s; clock := clock s;
     sent := sent s; invoked := invoked s; console := console s |}.

Definition set_connects (x : list connect_promise) (s : state) : state :=
  {| ws := ws s; requestId := requestId s; pendingRequests := pendingRequests s;
     subscriptions := subscriptions s; reconnectTimeout := reconnectTimeout s;
     maxReconnectAttempts := maxReconnectAttempts s;
     reconnectAttempts := reconnectAttempts s; url_valid := url_valid s;
     sockets := sockets s; connects := x; promises := promises s;
     timers := timers s; next_timer := next_timer s; clock := clock s;
     sent := sent s; invoked := invoked s; console := console s |}.

Definition set_promises (x : list promise) (s : state) : state :=
  {| ws := ws s; requestId := requestId s; pendingRequests := pendingRequests s;
     subscriptions := subscriptions s; reconnectTimeout := reconnectTimeout s;
     maxReconnectAttempts := maxReconnectAttempts s;
     reconnectAttempts := reconnectAttempts s; url_valid := url_valid s;
     sockets := sockets s; connects := connects s; promises := x;
     timers := timers s; next_timer := next_timer s; clock := clock s;
     sent := sent s; invoked := invoked s; console := console s |}.

Definition set_timers (x : gmap nat timer) (n : nat) (s : state) : state :=
  {| ws := ws s; requestId := requestId s; pendingRequests := pendingRequests s;
     subscriptions := subscriptions s; reconnectTimeout := reconnectTimeout s;
     maxReconnectAttempts := maxReconnectAttempts s;
     reconnectAttempts := reconnectAttempts s; url_valid := url_valid s;
     sockets := sockets s; connects := connects s; promises := promises s;
     timers := x; next_timer := n; clock := clock s;
     sent := sent s; invoked := invoked s; console := console s |}.

Definition set_clock (x : Z) (s : state) : state :=
  {| ws := ws s; requestId := requestId s; pendingRequests := pendingRequests s;
     subscriptions := subscriptions s; reconnectTimeout := reconnectTimeout s;
     maxReconnectAttempts := maxReconnectAttempts s;
     reconnectAttempts := reconnectAttempts s; url_valid := url_valid s;
     sockets := sockets s; connects := connects s; promises := promises s;
     timers := timers s; next_timer := next_timer s; clock := x;
     sent := sent s; invoked := invoked s; console := console s |}.

Definition set_sent (x : list (nat * request)) (s : state) : state :=
  {| ws := ws s; requestId := requestId s; pendingRequests := pendingRequests s;
     subscriptions := subscriptions s; reconnectTimeout := reconnectTimeout s;
     maxReconnectAttempts := maxReconnectAttempts s;
     reconnectAttempts := reconnectAttempts s; url_valid := url_valid s;
     sockets := sockets s; connects := connects s; promises := promises s;
     timers := timers s; next_timer := next_timer s; clock := clock s;
     sent := x; invoked := invoked s; console := console s |}.

Definition set_invoked (x : list (nat * option json)) (s : state) : state :=
  {| ws := ws s; requestId := requestId s; pendingRequests := pendingRequests s;
     subscriptions := subscriptions s; reconnectTimeout := reconnectTimeout s;
     maxReconnectAttempts := maxReconnectAttempts s;
     reconnectAttempts := reconnectAttempts s; url_valid := url_valid s;
     sockets := sockets s; connects := connects s; promises := promises s;
     timers := timers s; next_timer := next_timer s; clock := clock s;
     sent := sent s; invoked := x; console := console s |}.

Definition set_console (x : list console_entry) (s : state) : state :=
  {| ws := ws s; requestId := requestId s; pendingRequests := pendingRequests s;
     subscriptions := subscriptions s; reconnectTimeout := reconnectTimeout s;
     maxReconnectAttempts := maxReconnectAttempts s;
     reconnectAttempts := reconnectAttempts s; url_valid := url_valid s;
     sockets := sockets s; connects := connects s; promises := promises s;
     timers := timers s; next_timer := next_timer s; clock := clock s;
     sent := sent s; invoked := invoked s; console := x |}.

(** *** Primitive effects *)

Definition log (e : console_entry) (s : state) : state :=
  set_console (console s ++ [e]) s.

(** Settling a request promise: a no-op once it is settled. *)
Definition settle (p : nat) (outcome : promise) (s : state) : state :=
  match promises s !! p with
  | Some Pending => set_promises (<[p := outcome]> (promises s)) s
  | _ => s
  end.

Definition resolve (p : nat) (v : option json) : state -> state :=
  settle p (Fulfilled v).

Definition reject (p : nat) (e : js_error) : state -> state :=
  settle p (Rejected e).

(** Settling the promise of a [connect] call; a rejection reaches
    [console.error] when the call site attached [.catch(console.error)]. *)
Definition resolve_connect (c : nat) (s : state) : state :=
  match connects s !! c with
  | Some {| c_state := Pending; c_caught := k |} =>
      set_connects
        (<[c := {| c_state := Fulfilled None; c_caught := k |}]> (connects s)) s
  | _ => s
  end.

Definition reject_connect (c : nat) (e : js_error) (s : state) : state :=
  match connects s !! c with
  | Some {| c_state := Pending; c_caught := k |} =>
      let s :=
        set_connects
          (<[c := {| c_state := Rejected e; c_caught := k |}]> (connects s)) s in
      if k then log (console_error_reason "" e) s else s
  | _ => s
  end.

Definition setTimeout (a : timer_action) (delay : Z) (s : state) : nat * state :=
  let h := next_timer s in
  (h, set_timers
        (<[h := {| t_delay := delay; t_due := clock s + delay; t_action := a |}]>
           (timers s))
        (S h) s).

Definition clearTimeout (h : nat) (s : state) : state :=
  set_timers (delete h (timers s)) (next_timer s) s.

Definition ws_send (sid : nat) (r : request) (s : state) : state :=
  set_sent (sent s ++ [(sid, r)]) s.

Definition set_ready (sid : nat) (r : readyState) (s : state) : state :=
  match sockets s !! sid with
  | Some sk =>
      set_sockets
        (<[sid := {| sk_ready := r; sk_promise := sk_promise sk |}]> (sockets s)) s
  | None => s
  end.

(** [WebSocket.close()]: starts the closing handshake unless the socket
    is already closing or closed. *)
Definition ws_close (sid : nat) (s : state) : state :=
  match sockets s !! sid with
  | Some sk =>
      match sk_ready sk with
      | CONNECTING | OPEN => set_ready sid CLOSING s
      | CLOSING | CLOSED => s
      end
  | None => s
  end.

Definition invoke (cb : nat) (arg : option json) (s : state) : state :=
  set_invoked (invoked s ++ [(cb, arg)]) s.

(** ** The methods of the class *)

(** [connect()]: the promise is made first; the executor either builds a
    socket in state CONNECTING whose four handlers close over that
    promise, or catches what the constructor threw. [caught] says whether
    the caller chains [.catch(console.error)]. *)
Definition connect (caught : bool) (s : state) : nat * state :=
  let c := length (connects s) in
  let s := set_connects (connects s ++ [{| c_state := Pending; c_caught := caught |}]) s in
  if url_valid s then
    let sid := length (sockets s) in
    let s := set_sockets (sockets s ++ [{| sk_ready := CONNECTING; sk_promise := c |}]) s in
    (c, set_ws (Some sid) s)
  else
    (c, reject_connect c ConstructorThrew s).

(** [handleMessage(data)]; [data] is given as what [JSON.parse(data)]
    yields, [None] when it throws. Reading [message.id] off [null] throws
    as well; both land in the [catch]. The two [if] blocks of the body
    are [handle_response] and [handle_notification]; they are not
    exclusive, a frame can take both. *)
Definition handle_response (message : json) (s : state) : state :=
  let id := prop message "id" in
  if truthy id then
    match number_key id with
    | Some k =>
        match pendingRequests s !! k with
        | Some p =>
            let s := set_pendingRequests (delete k (pendingRequests s)) s in
            let error := prop message "error" in
            if truthy error then
              reject p (NewError (error ≫= λ e, prop e "message")) s
            else
              resolve p (prop message "result") s
        | None => s
        end
    | None => s
    end
  else s.

Definition handle_notification (message : json) (s : state) : state :=
  let method := prop message "method" in
  if truthy method then
    match string_key method with
    | Some name =>
        match subscriptions s !! name with
        | Some callback => invoke callback (prop message "params") s
        | None => s
        end
    | None => s
    end
  else s.

Definition handleMessage (data : option json) (s : state) : state :=
  match data with
  | None | Some JNull => log (console_error "Error parsing message:") s
  | Some message => handle_notification message (handle_response message s)
  end.

Definition handleReconnect (s : state) : state :=
  if reconnectAttempts s <? maxReconnectAttempts s then
    let s := set_reconnectAttempts (reconnectAttempts s + 1) s in
    let delay := Z.min (1000 * 2 ^ reconnectAttempts s) 30000 in
    let s := log (console_log_reconnect delay (reconnectAttempts s)
                    (maxReconnectAttempts s)) s in
    let '(h, s) := setTimeout Reconnect delay s in
    set_reconnectTimeout (Some h) s
  else
    log (console_error "Max reconnection attempts reached") s.

(** [!this.ws || this.ws.readyState !== WebSocket.OPEN], negated. *)
Definition open_socket (s : state) : option nat :=
  match ws s with
  | Some sid =>
      match sockets s !! sid with
      | Some {| sk_ready := OPEN |} => Some sid
      | _ => None
      end
  | None => None
  end.

(** [params || {}] *)
Definition params_or_empty (params : option json) : json :=
  match params with
  | Some v => if truthy params then v else JObj []
  | None => JObj []
  end.

Definition sendRequest (method : string) (params : option json) (s : state)
  : nat * state :=
  let p := length (promises s) in
  let s := set_promises (promises s ++ [Pending]) s in
  match open_socket s with
  | None => (p, reject p (NewError (Some (JStr "WebSocket not connected"))) s)
  | Some sid =>
      let id := requestId s + 1 in
      let s := set_requestId id s in
      let request :=
        {| req_id := id; req_method := method;
           req_params := params_or_empty params |} in
      let s := set_pendingRequests (<[id := p]> (pendingRequests s)) s in
      let s := ws_send sid request s in
      let '(_, s) := setTimeout (RequestTimeout id p) 10000 s in
      (p, s)
  end.

(** The closure handed to [setTimeout] by [sendRequest]. *)
Definition request_timeout (id : Z) (p : nat) (s : state) : state :=
  match pendingRequests s !! id with
  | Some _ =>
      let s := set_pendingRequests (delete id (pendingRequests s)) s in
      reject p (NewError (Some (JStr "Request timeout"))) s
  | None => s
  end.

(** *** API methods *)

Definition getSystemStats : state -> nat * state :=
  sendRequest "get_system_stats" None.

Definition getProcesses (limit : Z) (sortBy : string) : state -> nat * state :=
  sendRequest "get_processes"
    (Some (JObj [("limit", JNum limit); ("sort_by", JStr sortBy)])).

(** An argument left [undefined] is a member [JSON.stringify] drops. *)
Definition optional_member (k : string) (v : option string)
  : list (string * json) :=
  match v with
  | Some x => [(k, JStr x)]
  | None => []
  end.

Definition getLogs (limit : Z) (levelFilter searchTerm : option string)
    (hoursBack : Z) : state -> nat * state :=
  sendRequest "get_logs"
    (Some (JObj ([("limit", JNum limit)]
                   ++ optional_member "level_filter" levelFilter
                   ++ optional_member "search_term" searchTerm
                   ++ [("hours_back", JNum hoursBack)]))).

Definition ping : state -> nat * state := sendRequest "ping" None.

Definition getServerInfo : state -> nat * state :=
  sendRequest "get_server_info" None.

(** *** Subscription methods *)

Definition subscribeToSystemStats (callback : nat) (s : state) : nat * state :=
  let s := set_subscriptions (<["system_stats" := callback]> (subscriptions s)) s in
  sendRequest "subscribe_system_stats" None s.

Definition subscribeToAlerts (callback : nat) (s : state) : nat * state :=
  let s := set_subscriptions (<["alerts" := callback]> (subscriptions s)) s in
  sendRequest "subscribe_alerts" None s.

Definition subscribeToLogs (callback : nat) (s : state) : nat * state :=
  let s := set_subscriptions (<["logs" := callback]> (subscriptions s)) s in
  sendRequest "subscribe_logs" None s.

Definition unsubscribeFromSystemStats (s : state) : nat * state :=
  let s := set_subscriptions (delete "system_stats" (subscriptions s)) s in
  sendRequest "unsubscribe_system_stats" None s.

Definition unsubscribeFromAlerts (s : state) : nat * state :=
  let s := set_subscriptions (delete "alerts" (subscriptions s)) s in
  sendRequest "unsubscribe_alerts" None s.

Definition unsubscribeFromLogs (s : state) : nat * state :=
  let s := set_subscriptions (delete "logs" (subscriptions s)) s in
  sendRequest "unsubscribe_logs" None s.

Definition disconnect (s : state) : state :=
  let s :=
    match reconnectTimeout s with
    | Some h => set_reconnectTimeout None (clearTimeout h s)
    | None => s
    end in
  let s := set_subscriptions ∅ s in
  let s := set_pendingRequests ∅ s in
  match ws s with
  | Some sid => set_ws None (ws_close sid s)
  | None => s
  end.

Definition isConnected (s : state) : bool :=
  match ws s with
  | Some sid =>
      match sockets s !! sid with
      | Some sk => bool_decide (sk_ready sk = OPEN)
      | None => false
      end
  | None => false
  end.

(** *** The handlers installed by [connect] *)

Definition onopen (c : nat) (s : state) : state :=
  let s := log (console_log "Connected to MCP server") s in
  let s := set_reconnectAttempts 0 s in
  resolve_connect c s.

Definition onmessage (data : option json) (s : state) : state :=
  handleMessage data s.

Definition onclose (s : state) : state :=
  let s := log (console_log "Disconnected from MCP server") s in
  handleReconnect s.

Definition onerror (sid c : nat) (s : state) : state :=
  let s := log (console_error_reason "WebSocket error:" (ErrorEvent sid)) s in
  reject_connect c (ErrorEvent sid) s.

(** The closure handed to [setTimeout] by [handleReconnect]. *)
Definition reconnect_timer (s : state) : state :=
  (connect true s).2.

(** ** The event loop

    One [event] is one task of the browser's event loop: a call made by
    the application, an event fired on some socket, a timer that runs
    out, or time passing. Socket events are delivered as the browser
    delivers them: [open] only to a connecting socket, [message] only to
    an open one, [error] and [close] only to a socket that has not been
    closed yet, and a timer only once it is due. An event the browser
    would not deliver leaves the state as it is. *)

Inductive event : Type :=
| Call_connect
| Call_getSystemStats
| Call_getProcesses (limit : Z) (sortBy : string)
| Call_getLogs (limit : Z) (levelFilter searchTerm : option string) (hoursBack : Z)
| Call_ping
| Call_getServerInfo
| Call_subscribeToSystemStats (callback : nat)
| Call_subscribeToAlerts (callback : nat)
| Call_subscribeToLogs (callback : nat)
| Call_unsubscribeFromSystemStats
| Call_unsubscribeFromAlerts
| Call_unsubscribeFromLogs
| Call_disconnect
| Ws_open (sid : nat)
| Ws_message (sid : nat) (data : option json)
| Ws_error (sid : nat)
| Ws_close (sid : nat)
| Timer_fire (h : nat)
| Elapse (dt : N).

Definition run_timer (a : timer_action) (s : state) : state :=
  match a with
  | RequestTimeout id p => request_timeout id p s
  | Reconnect => reconnect_timer s
  end.

Definition step (s : state) (e : event) : state :=
  match e with
  | Call_connect => (connect false s).2
  | Call_getSystemStats => (getSystemStats s).2
  | Call_getProcesses limit sortBy => (getProcesses limit sortBy s).2
  | Call_getLogs limit levelFilter searchTerm hoursBack =>
      (getLogs limit levelFilter searchTerm hoursBack s).2
  | Call_ping => (ping s).2
  | Call_getServerInfo => (getServerInfo s).2
  | Call_subscribeToSystemStats cb => (subscribeToSystemStats cb s).2
  | Call_subscribeToAlerts cb => (subscribeToAlerts cb s).2
  | Call_subscribeToLogs cb => (subscribeToLogs cb s).2
  | Call_unsubscribeFromSystemStats => (unsubscribeFromSystemStats s).2
  | Call_unsubscribeFromAlerts => (unsubscribeFromAlerts s).2
  | Call_unsubscribeFromLogs => (unsubscribeFromLogs s).2
  | Call_disconnect => disconnect s
  | Ws_open sid =>
      match sockets s !! sid with
      | Some {| sk_ready := CONNECTING; sk_promise := c |} =>
          onopen c (set_ready sid OPEN s)
      | _ => s
      end
  | Ws_message sid data =>
      match sockets s !! sid with
      | Some {| sk_ready := OPEN |} => onmessage data s
      | _ => s
      end
  | Ws_error sid =>
      match sockets s !! sid with
      | Some {| sk_ready := CLOSED |} | None => s
      | Some sk => onerror sid (sk_promise sk) s
      end
  | Ws_close sid =>
      match sockets s !! sid with
      | Some {| sk_ready := CLOSED |} | None => s
      | Some _ => onclose (set_ready sid CLOSED s)
      end
  | Timer_fire h =>
      match timers s !! h with
      | Some t =>
          if t_due t <=? clock s then run_timer (t_action t) (clearTimeout h s)
          else s
      | None => s
      end
  | Elapse dt => set_clock (clock s + Z.of_N dt) s
  end.

Definition run (s : state) (tr : list event) : state := foldl step s tr.

(** Every state the service can be in. *)
Definition reachable (s : state) : Prop :=
  ∃ url_ok tr, s = run (init url_ok) tr.

(** ** Observations used by the statements *)

(** The delays of the reconnect timers scheduled so far, read off the
    console in the order they were scheduled. *)
Definition reconnect_delays (s : state) : list Z :=
  omap (λ e, match e with
             | console_log_reconnect d _ _ => Some d
             | _ => None
             end) (console s).

(** The requests written to one socket, in order. *)
Definition sent_on (sid : nat) (s : state) : list request :=
  omap (λ x : nat * request, if decide (x.1 = sid) then Some x.2 else None)
       (sent s).

(** The five request methods under the heading "API Methods". *)
Definition api_call (e : event) : bool :=
  match e with
  | Call_getSystemStats | Call_getProcesses _ _ | Call_getLogs _ _ _ _
  | Call_ping | Call_getServerInfo => true
  | _ => false
  end.

(** The event name and callback a subscription method registers, and
    the event name an unsubscription method drops. *)
Definition subscription_of (e : event) : option (string * nat) :=
  match e with
  | Call_subscribeToSystemStats cb => Some ("system_stats", cb)
  | Call_subscribeToAlerts cb => Some ("alerts", cb)
  | Call_subscribeToLogs cb => Some ("logs", cb)
  | _ => None
  end.

Definition subscribes_to (e : event) : option string :=
  fst <$> subscription_of e.

Definition unsubscribes_from (e : event) : option string :=
  match e with
  | Call_unsubscribeFromSystemStats => Some "system_stats"
  | Call_unsubscribeFromAlerts => Some "alerts"
  | Call_unsubscribeFromLogs => Some "logs"
  | _ => None
  end.

(** Something reaches the application: a promise it was handed changes,
    or one of its callbacks runs. *)
Definition surfaced_upward (s s' : state) : Prop :=
  promises s' ≠ promises s ∨ connects s' ≠ connects s
  ∨ invoked s' ≠ invoked s.

(** The promise a call made while disconnected returns. *)
Definition not_connected_error : promise :=
  Rejected (NewError (Some (JStr "WebSocket not connected"))).

(** No entry and no future event can settle [p]: it is pending and no
    entry of the pending map holds it. *)
Definition abandoned (p : nat) (s : state) : Prop :=
  promises s !! p = Some Pending ∧ ∀ id, pendingRequests s !! id ≠ Some p.

(** Every reconnect timer in the queue is the one whose handle the
    service keeps in [reconnectTimeout]. *)
Definition reconnect_tracked (s : state) : Prop :=
  ∀ h t, timers s !! h = Some t → t_action t = Reconnect →
         reconnectTimeout s = Some h.

(** The service looks after one connection at a time: its reconnect
    timers are tracked, a reconnect timer is only ever scheduled while
    every socket is closed, and at most one socket is not closed. This is
    what holds when the application calls [connect()] once. *)
Definition one_connection (s : state) : Prop :=
  reconnect_tracked s
  ∧ (∀ h t sid sk, timers s !! h = Some t → t_action t = Reconnect →
       sockets s !! sid = Some sk → sk_ready sk = CLOSED)
  ∧ (∀ i j ski skj, sockets s !! i = Some ski → sockets s !! j = Some skj →
       sk_ready ski ≠ CLOSED → sk_ready skj ≠ CLOSED → i = j).

(** No reconnect is scheduled: no timer in the queue would call
    [connect()] when it fires. *)
Definition no_reconnect_scheduled (s : state) : Prop :=
  ∀ h t, timers s !! h = Some t → t_action t ≠ Reconnect.

(** *** Scenarios *)

(** The application calls [connect()] a second time while the first
    socket is open; then both sockets are lost, the first one first. *)
Definition two_connections : list event :=
  [Call_connect; Ws_open 0; Call_connect; Ws_open 1; Ws_close 0; Ws_close 1].

(** The [k]-th failed reconnect of a service that makes no requests:
    socket [k] closes, the reconnect timer (handle [k + 1]) runs out and
    opens socket [k + 1], which fails. *)
Definition failure_round (k : nat) : list event :=
  [Ws_close k; Elapse 30000; Timer_fire (S k); Ws_error (S k)].

(** A connection that is established, lost, and followed by [n] failed
    reconnects in a row. *)
Definition consecutive_failures (n : nat) : list event :=
  [Call_connect; Ws_open 0] ++ flat_map failure_round (seq 0 n).

(** A connection with one subscription and two requests in flight is
    lost and re-established two seconds later. *)
Definition before_disconnect : list event :=
  [Call_connect; Ws_open 0; Call_subscribeToSystemStats 7; Call_ping].

Definition lost_and_reconnected : list event :=
  [Ws_close 0; Elapse 2000; Timer_fire 3; Ws_open 1].

(** *** Reconnecting in the words of the specification

    What the specification asks of a successful reconnect, between the
    state [s0] at the moment the connection was lost and the state [s1]
    once socket [sid] has taken over: every subscription of [s0] has been
    requested again on [sid], and every request pending in [s0] has been
    rejected. *)
Definition replays_subscriptions (s0 s1 : state) (sid : nat) : Prop :=
  ∀ name cb, subscriptions s0 !! name = Some cb →
    ∃ r, r ∈ sent_on sid s1 ∧ req_method r = "subscribe_" +:+ name.

Definition rejects_pending (s0 s1 : state) : Prop :=
  ∀ id p, pendingRequests s0 !! id = Some p →
    ∃ reason, promises s1 !! p = Some (Rejected reason).

(** The reconnect controller has given up: the attempt counter has
    reached its maximum, no reconnect timer is scheduled and every socket
    the service ever made is closed. *)
Definition exhausted (s : state) : Prop :=
  maxReconnectAttempts s ≤ reconnectAttempts s
  ∧ (∀ h t, timers s !! h = Some t → t_action t ≠ Reconnect)
  ∧ (∀ sid sk, sockets s !! sid = Some sk → sk_ready sk = CLOSED).

(** *** The reconnect schedule in the words of the specification

    [delay = min(base * 2^attempt, cap)] with base 1 s and cap 30 s, the
    attempt counter starting at 0: 1 s, 2 s, 4 s, 8 s, 16 s, 30 s, 30 s. *)
Definition spec_delay (attempt : nat) : Z :=
  Z.min (1000 * 2 ^ Z.of_nat attempt) 30000.

Definition spec_delay_sequence (n : nat) : list Z :=
  map spec_delay (seq 0 n).

(** ** Further observations on the service *)

(** The method names the class ever passes to [sendRequest]. *)
Definition exposed_methods : list string :=
  ["get_system_stats"; "get_processes"; "get_logs"; "ping"; "get_server_info";
   "subscribe_system_stats"; "subscribe_alerts"; "subscribe_logs";
   "unsubscribe_system_stats"; "unsubscribe_alerts"; "unsubscribe_logs"].

(** What the output of the service looks like at any time: the counter
    counts the requests written, the [i]-th of them (from 0) carries the
    id [i + 1], names an exposed method, has an object for params, and
    went to a socket the service made. *)
Definition sent_numbered (s : state) : Prop :=
  requestId s = Z.of_nat (length (sent s))
  ∧ ∀ i a, sent s !! i = Some a →
      req_id a.2 = Z.of_nat i + 1
      ∧ req_method a.2 ∈ exposed_methods
      ∧ (∃ ms, req_params a.2 = JObj ms)
      ∧ (a.1 < length (sockets s))%nat.



(** The promise [p] has been resolved or rejected. *)
Definition settled (p : nat) (s : state) : Prop :=
  ∃ o, promises s !! p = Some o ∧ o ≠ Pending.

(** The bounds the reconnect controller and the timers keep. *)
Definition timers_bounded (s : state) : Prop :=
  maxReconnectAttempts s = 5
  ∧ 0 ≤ reconnectAttempts s ≤ 5
  ∧ 0 ≤ clock s
  ∧ ∀ h t, timers s !! h = Some t →
      t_due t ≤ clock s + t_delay t
      ∧ match t_action t with
        | Reconnect => 2000 ≤ t_delay t ≤ 30000
        | RequestTimeout _ _ => t_delay t = 10000
        end.

(** ** The components that call the service

    The pure parts of [App.tsx] and of the panels: list updates kept in
    React state, the arguments the panels hand to the service, and the
    formatting helpers. A JavaScript array is a [list]; a number shown
    as a percentage is the rational value of the (finite) double, a [Q];
    a string whose length matters is the list of its UTF-16 code
    units. *)

(** [array.slice(-n)]: the last [n] elements. *)
Definition slice_last {A : Type} (n : nat) (l : list A) : list A :=
  drop (length l - n) l.

(** [array.filter((x, i) => keep(x, i))], the index counted from [i]. *)
Fixpoint filter_from {A : Type} (i : nat) (keep : A → nat → bool)
    (l : list A) : list A :=
  match l with
  | [] => []
  | x :: l =>
      if keep x i then x :: filter_from (S i) keep l
      else filter_from (S i) keep l
  end.

Definition array_filter {A : Type} (keep : A → nat → bool) (l : list A)
  : list A :=
  filter_from 0 keep l.

Module App.

Record chart_point : Type := {
  time : string;
  cpu : Q;
  memory : Q
}.

(** The updater [handleSystemStatsUpdate] passes to [setChartData];
    [timeStr] is [new Date().toLocaleTimeString()]. *)
Definition handleSystemStatsUpdate (timeStr : string) (cpu_percent
    memory_percent : Q) (prev : list chart_point) : list chart_point :=
  let newData :=
    prev ++ [{| time := timeStr; cpu := cpu_percent;
                memory := memory_percent |}] in
  slice_last 50 newData.

(** The updater [handleDismissAlert] passes to [setAlerts]. *)
Definition handleDismissAlert {Alert : Type} (index : nat)
    (prev : list Alert) : list Alert :=
  array_filter (λ _ i, negb (i =? index)%nat) prev.

Record log_filters : Type := {
  level : option string;
  search : option string
}.

(** [handleLogsRefresh] and [handleProcessesRefresh] up to the call they
    await. *)
Definition handleLogsRefresh (filters : log_filters) : state → nat * state :=
  getLogs 100 (level filters) (search filters) 24.

Definition handleProcessesRefresh (sortBy : string) (limit : Z)
  : state → nat * state :=
  getProcesses limit sortBy.

End App.

Module LogsPanel.

Record panel : Type := {
  searchTerm : string;
  levelFilter : string
}.

(** [v || undefined] on a string. *)
Definition or_undefined (v : string) : option string :=
  if String.eqb v "" then None else Some v.

(** The argument [handleSearch] hands to [onRefresh]. *)
Definition handleSearch (p : panel) : App.log_filters :=
  {| App.level := or_undefined (levelFilter p);
     App.search := or_undefined (searchTerm p) |}.

(** The new panel state and the argument [clearFilters] hands to
    [onRefresh]. *)
Definition clearFilters (p : panel) : panel * App.log_filters :=
  ({| searchTerm := ""; levelFilter := "" |},
   {| App.level := None; App.search := None |}).

End LogsPanel.

Module SystemOverview.

Definition getUsageColor (percentage : Q) : string :=
  if Qle_bool 90 percentage then "text-red-500"
  else if Qle_bool 70 percentage then "text-yellow-500"
  else "text-green-500".

Definition getProgressColor (percentage : Q) : string :=
  if Qle_bool 90 percentage then "bg-red-500"
  else if Qle_bool 70 percentage then "bg-yellow-500"
  else "bg-green-500".

End SystemOverview.

Module ProcessesPanel.

Record panel : Type := {
  sortBy : string;
  limit : Z
}.

(** The new panel state and the arguments handed to [onRefresh]. *)
Definition handleSortChange (newSortBy : string) (p : panel)
  : panel * (string * Z) :=
  ({| sortBy := newSortBy; limit := limit p |}, (newSortBy, limit p)).

Definition handleLimitChange (newLimit : Z) (p : panel)
  : panel * (string * Z) :=
  ({| sortBy := sortBy p; limit := newLimit |}, (sortBy p, newLimit)).

(** [process.cpu_percent || 0]; [None] is a missing or null member. *)
Definition or_zero (v : option Q) : Q :=
  match v with
  | Some q => if Qeq_bool q 0 then 0%Q else q
  | None => 0%Q
  end.

Definition getUsageColor (percentage : Q) : string :=
  if Qle_bool 50 percentage then "text-red-600"
  else if Qle_bool 25 percentage then "text-yellow-600"
  else "text-green-600".

(** The class of the bar drawn next to the number. *)
Definition bar_color (percentage : Q) : string :=
  if Qle_bool 50 percentage then "bg-red-500"
  else if Qle_bool 25 percentage then "bg-yellow-500"
  else "bg-green-500".

(** A process name as its UTF-16 code units; 46 is the full stop. *)
Definition formatProcessName (name : list N) : list N :=
  if (20 <? length name)%nat then take 20 name ++ [46; 46; 46]%N
  else name.

End ProcessesPanel.

(** ** The invariant of the correlation layer

    What every reachable state satisfies: ids handed out so far are the
    numbers [1 .. requestId]; an entry of [pendingRequests] holds a
    promise that is still pending, that no other entry holds, and whose
    10-second timer is armed; a timer of [sendRequest] only ever speaks
    for the entry it was armed with; timer handles are never reused. *)

Definition event_names : list string := ["system_stats"; "alerts"; "logs"].

Record wf (s : state) : Prop := {
  wf_requestId : 0 ≤ requestId s;
  wf_pending_id : ∀ id p,
    pendingRequests s !! id = Some p → 0 < id ≤ requestId s;
  wf_pending_promise : ∀ id p,
    pendingRequests s !! id = Some p → promises s !! p = Some Pending;
  wf_pending_inj : ∀ id1 id2 p,
    pendingRequests s !! id1 = Some p → pendingRequests s !! id2 = Some p →
    id1 = id2;
  wf_pending_timer : ∀ id p,
    pendingRequests s !! id = Some p →
    ∃ h t, timers s !! h = Some t ∧ t_action t = RequestTimeout id p
           ∧ t_delay t = 10000;
  wf_timer_request : ∀ h t id p,
    timers s !! h = Some t → t_action t = RequestTimeout id p →
    id ≤ requestId s ∧ (p < length (promises s))%nat
    ∧ ∀ p', pendingRequests s !! id = Some p' → p' = p;
  wf_timer_handle : ∀ h t, timers s !! h = Some t → (h < next_timer s)%nat;
  wf_reconnectTimeout : ∀ h,
    reconnectTimeout s = Some h →
    (h < next_timer s)%nat
    ∧ ∀ t, timers s !! h = Some t → t_action t = Reconnect;
  wf_sent_le : ∀ i a, sent s !! i = Some a → 0 < req_id a.2 ≤ requestId s;
  wf_sent_lt : ∀ i j a b,
    sent s !! i = Some a → sent s !! j = Some b → (i < j)%nat →
    req_id a.2 < req_id b.2;
  wf_subscriptions : ∀ name cb,
    subscriptions s !! name = Some cb → name ∈ event_names
}.

(** [wf] reads eight fields only. *)
Lemma wf_ext (s s' : state) :
  requestId s' = requestId s →
  pendingRequests s' = pendingRequests s →
  subscriptions s' = subscriptions s →
  reconnectTimeout s' = reconnectTimeout s →
  promises s' = promises s →
  timers s' = timers s →
  next_timer s' = next_timer s →
  sent s' = sent s →
  wf s → wf s'.
Proof.
  intros E1 E2 E3 E4 E5 E6 E7 E8 [].
  split; rewrite ?E1, ?E2, ?E3, ?E4, ?E5, ?E6, ?E7, ?E8; assumption.
Qed.

Ltac wf_same :=
  match goal with
  | W : wf ?s |- _ => apply (wf_ext s); [reflexivity .. | exact W]
  end.

Lemma wf_init (url_ok : bool) : wf (init url_ok).
Proof.
  split; simpl; try done; lia.
Qed.

(** Unfolding the whole service, for facts that hold branch by branch. *)
Ltac unfold_ops :=
  unfold getSystemStats, getProcesses, getLogs, ping, getServerInfo,
    subscribeToSystemStats, subscribeToAlerts, subscribeToLogs,
    unsubscribeFromSystemStats, unsubscribeFromAlerts, unsubscribeFromLogs,
    disconnect, onopen, onmessage, onerror, onclose, handleMessage,
    handle_response, handle_notification, handleReconnect, run_timer,
    request_timeout, reconnect_timer, sendRequest, connect, reject_connect,
    resolve_connect, resolve, reject, settle, ws_close, set_ready,
    clearTimeout, setTimeout, log, invoke, ws_send in *.

Ltac crunch :=
  simpl in *; unfold_ops; simpl in *;
  repeat (case_match; simpl in *; unfold_ops; simpl in *);
  try done.

(** *** Preservation, operation by operation *)

Lemma settle_unreferenced (p : nat) (o : promise) (s : state) :
  wf s → (∀ id, pendingRequests s !! id ≠ Some p) → wf (settle p o s).
Proof.
  intros W Hp. unfold settle.
  destruct (promises s !! p) as [[| |]|] eqn:E; try assumption.
  destruct W. split; simpl; try assumption.
  - intros id q Hq. rewrite list_lookup_insert_ne; [eauto|].
    intros ->. by apply (Hp id).
  - intros h t id q Ht Ha. rewrite length_insert. eauto.
Qed.

Lemma wf_delete_pending (k : Z) (s : state) :
  wf s → wf (set_pendingRequests (delete k (pendingRequests s)) s).
Proof.
  intros []. split; simpl; try assumption.
  - intros id p [_ H]%lookup_delete_Some. eauto.
  - intros id p [_ H]%lookup_delete_Some. eauto.
  - intros id1 id2 p [_ H1]%lookup_delete_Some [_ H2]%lookup_delete_Some. eauto.
  - intros id p [_ H]%lookup_delete_Some. eauto.
  - intros h t id p Ht Ha.
    destruct (wf_timer_request0 h t id p Ht Ha) as (Hle & Hlt & Hu).
    repeat split; try assumption.
    intros p' [_ Hp']%lookup_delete_Some. eauto.
Qed.

Lemma deleted_unreferenced (k : Z) (p : nat) (s : state) :
  wf s → pendingRequests s !! k = Some p →
  ∀ id, delete k (pendingRequests s) !! id ≠ Some p.
Proof.
  intros W Hk id [Hne H]%lookup_delete_Some.
  apply Hne. eapply wf_pending_inj; eauto.
Qed.

Lemma wf_settle_deleted (k : Z) (p : nat) (o : promise) (s : state) :
  wf s → pendingRequests s !! k = Some p →
  wf (settle p o (set_pendingRequests (delete k (pendingRequests s)) s)).
Proof.
  intros W Hk. apply settle_unreferenced.
  - by apply wf_delete_pending.
  - simpl. by apply deleted_unreferenced.
Qed.

Lemma wf_handle_response (message : json) (s : state) :
  wf s → wf (handle_response message s).
Proof.
  intros W. unfold handle_response.
  destruct (truthy (prop message "id")); [|done].
  destruct (number_key _) as [k|]; [|done].
  destruct (pendingRequests s !! k) as [p|] eqn:Hk; [|done].
  simpl. destruct (truthy (prop message "error"));
    by apply wf_settle_deleted.
Qed.

Lemma wf_handle_notification (message : json) (s : state) :
  wf s → wf (handle_notification message s).
Proof.
  intros W. unfold handle_notification.
  destruct (truthy _); [|done].
  destruct (string_key _); [|done].
  destruct (subscriptions _ !! _); [|done]. wf_same.
Qed.

Lemma wf_handleMessage (data : option json) (s : state) :
  wf s → wf (handleMessage data s).
Proof.
  intros W. unfold handleMessage.
  destruct data as [[]|]; try wf_same;
    by apply wf_handle_notification, wf_handle_response.
Qed.

Lemma wf_new_promise (s : state) :
  wf s → wf (set_promises (promises s ++ [Pending]) s).
Proof.
  intros []. split; simpl; try assumption.
  - intros id p Hp. apply lookup_app_l_Some. eauto.
  - intros h t id p Ht Ha. rewrite length_app. simpl.
    destruct (wf_timer_request0 h t id p Ht Ha) as (Hle & Hlt & Hu).
    repeat split; try assumption. lia.
Qed.

Lemma pending_promise_lt (s : state) (id : Z) (p : nat) :
  wf s → pendingRequests s !! id = Some p → (p < length (promises s))%nat.
Proof.
  intros W H. eapply lookup_lt_Some, wf_pending_promise; eauto.
Qed.

Lemma wf_sendRequest (method : string) (params : option json) (s : state) :
  wf s → wf (sendRequest method params s).2.
Proof.
  intros W. unfold sendRequest.
  destruct (open_socket _) as [sid|] eqn:Ho; simpl.
  - clear Ho. destruct W. split; simpl.
    + lia.
    + intros id p [[<- <-]|[Hne H]]%lookup_insert_Some; [lia|].
      apply wf_pending_id0 in H. lia.
    + intros id p [[<- <-]|[Hne H]]%lookup_insert_Some.
      * by apply list_lookup_middle.
      * apply lookup_app_l_Some. eauto.
    + intros id1 id2 p [[E1 Hp1]|[Hne1 H1]]%lookup_insert_Some
        [[E2 Hp2]|[Hne2 H2]]%lookup_insert_Some.
      * congruence.
      * apply wf_pending_promise0, lookup_lt_Some in H2. lia.
      * apply wf_pending_promise0, lookup_lt_Some in H1. lia.
      * eauto.
    + intros id p [[<- <-]|[Hne H]]%lookup_insert_Some.
      * eexists (next_timer s), _. rewrite lookup_insert_eq. done.
      * destruct (wf_pending_timer0 id p H) as (h & t & Ht & Ha & Hd).
        exists h, t. rewrite lookup_insert_ne; [done|].
        apply wf_timer_handle0 in Ht. lia.
    + intros h t id p [[<- <-]|[Hne H]]%lookup_insert_Some Ha.
      * simpl in Ha. injection Ha as <- <-.
        rewrite length_app, lookup_insert_eq. simpl.
        repeat split; [lia|lia|congruence].
      * destruct (wf_timer_request0 h t id p H Ha) as (Hle & Hlt & Hu).
        rewrite length_app. simpl. repeat split; [lia|lia|].
        intros p'. rewrite lookup_insert_ne by lia. apply Hu.
    + intros h t [[<- <-]|[Hne H]]%lookup_insert_Some; [lia|].
      apply wf_timer_handle0 in H. lia.
    + intros h Hh. destruct (wf_reconnectTimeout0 h Hh) as [Hlt Ht].
      split; [lia|]. intros t. rewrite lookup_insert_ne by lia. apply Ht.
    + intros i a [H|[_ H]]%lookup_app_Some.
      * apply wf_sent_le0 in H. lia.
      * apply list_lookup_singleton_Some in H as [_ <-]. simpl. lia.
    + intros i j a b [Hi|[Hl Hi]]%lookup_app_Some
        [Hj|[Hl' Hj]]%lookup_app_Some Hij.
      * eauto.
      * apply list_lookup_singleton_Some in Hj as [_ <-]. simpl.
        apply wf_sent_le0 in Hi. lia.
      * apply lookup_lt_Some in Hj. lia.
      * apply list_lookup_singleton_Some in Hi as [? _].
        apply list_lookup_singleton_Some in Hj as [? _]. lia.
    + assumption.
  - apply settle_unreferenced; [by apply wf_new_promise|].
    simpl. intros id H. apply pending_promise_lt in H; [lia|done].
Qed.

Lemma wf_clearTimeout (h : nat) (s : state) :
  wf s →
  (∀ t id p, timers s !! h = Some t → t_action t = RequestTimeout id p →
             pendingRequests s !! id = None) →
  wf (clearTimeout h s).
Proof.
  intros W Hh. destruct W. split; simpl; try assumption.
  - intros id p Hp.
    destruct (wf_pending_timer0 id p Hp) as (h' & t & Ht & Ha & Hd).
    exists h', t. repeat split; try assumption.
    rewrite lookup_delete_ne; [done|]. intros <-.
    specialize (Hh t id p Ht Ha). congruence.
  - intros h' t id p [_ Ht]%lookup_delete_Some. eauto.
  - intros h' t [_ Ht]%lookup_delete_Some. eauto.
  - intros h' Hr. destruct (wf_reconnectTimeout0 h' Hr) as [Hlt Ht].
    split; [done|]. intros t [_ Hd]%lookup_delete_Some. eauto.
Qed.

Lemma wf_request_timeout (h : nat) (t : timer) (id : Z) (p : nat) (s : state) :
  wf s → timers s !! h = Some t → t_action t = RequestTimeout id p →
  wf (request_timeout id p (clearTimeout h s)).
Proof.
  intros W Ht Ha. unfold request_timeout. simpl.
  destruct (pendingRequests s !! id) as [p'|] eqn:Hp.
  - assert (p' = p) as -> by (eapply wf_timer_request; eauto).
    apply settle_unreferenced.
    + apply (wf_ext (clearTimeout h
               (set_pendingRequests (delete id (pendingRequests s)) s)));
        [reflexivity .. |].
      apply wf_clearTimeout.
      * by apply wf_delete_pending.
      * simpl. intros t' id' q Ht' Ha'.
        assert (id' = id) as -> by congruence.
        apply lookup_delete_eq.
    + simpl. by apply deleted_unreferenced.
  - apply wf_clearTimeout; [done|].
    intros t' id' q Ht' Ha'. congruence.
Qed.

Lemma wf_reject_connect (c : nat) (e : js_error) (s : state) :
  wf s → wf (reject_connect c e s).
Proof.
  intros W. unfold reject_connect.
  destruct (connects s !! c) as [[[| |] []]|]; try done; wf_same.
Qed.

Lemma wf_resolve_connect (c : nat) (s : state) :
  wf s → wf (resolve_connect c s).
Proof.
  intros W. unfold resolve_connect.
  destruct (connects s !! c) as [[[| |] k]|]; try done; wf_same.
Qed.

Lemma wf_connect (caught : bool) (s : state) : wf s → wf (connect caught s).2.
Proof.
  intros W. unfold connect. simpl.
  destruct (url_valid s); simpl; [wf_same|].
  apply wf_reject_connect. wf_same.
Qed.

Lemma wf_handleReconnect (s : state) : wf s → wf (handleReconnect s).
Proof.
  intros W. unfold handleReconnect.
  destruct (_ <? _); [|wf_same]. simpl.
  destruct W. split; simpl; try assumption.
  - intros id p Hp.
    destruct (wf_pending_timer0 id p Hp) as (h & t & Ht & Ha & Hd).
    exists h, t. rewrite lookup_insert_ne; [done|].
    apply wf_timer_handle0 in Ht. lia.
  - intros h t id p [[<- <-]|[Hne H]]%lookup_insert_Some Ha; [done|eauto].
  - intros h t [[<- <-]|[Hne H]]%lookup_insert_Some; [lia|].
    apply wf_timer_handle0 in H. lia.
  - intros h [= <-]. split; [lia|].
    intros t. rewrite lookup_insert_eq. by intros [= <-].
Qed.

Lemma wf_timer_fire (h : nat) (t : timer) (s : state) :
  wf s → timers s !! h = Some t →
  wf (run_timer (t_action t) (clearTimeout h s)).
Proof.
  intros W Ht. destruct (t_action t) as [id p|] eqn:Ha; simpl.
  - by eapply wf_request_timeout.
  - apply wf_connect, wf_clearTimeout; [done|].
    intros t' id p Ht' Ha'. congruence.
Qed.

Lemma wf_set_subscriptions (m : gmap string nat) (s : state) :
  wf s → (∀ name cb, m !! name = Some cb → name ∈ event_names) →
  wf (set_subscriptions m s).
Proof. intros [] Hm. by split. Qed.

Lemma wf_subscribe (name : string) (cb : nat) (s : state) :
  wf s → name ∈ event_names →
  wf (set_subscriptions (<[name := cb]> (subscriptions s)) s).
Proof.
  intros W Hn. apply wf_set_subscriptions; [done|].
  intros k v [[<- _]|[_ H]]%lookup_insert_Some; [done|].
  by eapply wf_subscriptions.
Qed.

Lemma wf_unsubscribe (name : string) (s : state) :
  wf s → wf (set_subscriptions (delete name (subscriptions s)) s).
Proof.
  intros W. apply wf_set_subscriptions; [done|].
  intros k v [_ H]%lookup_delete_Some. by eapply wf_subscriptions.
Qed.

Lemma wf_ws_close (sid : nat) (s : state) : wf s → wf (ws_close sid s).
Proof.
  intros W. unfold ws_close, set_ready.
  destruct (sockets s !! sid) as [[[] c]|]; simpl; try done; wf_same.
Qed.

Lemma wf_set_ready (sid : nat) (r : readyState) (s : state) :
  wf s → wf (set_ready sid r s).
Proof.
  intros W. unfold set_ready. destruct (sockets s !! sid); [wf_same|done].
Qed.

Lemma wf_disconnect (s : state) : wf s → wf (disconnect s).
Proof.
  intros W. unfold disconnect.
  set (s1 := match reconnectTimeout s with
             | Some h => set_reconnectTimeout None (clearTimeout h s)
             | None => s
             end).
  assert (W2 : wf (set_pendingRequests ∅ (set_subscriptions ∅ s1))).
  { assert (H1 : requestId s1 = requestId s ∧ promises s1 = promises s
                 ∧ next_timer s1 = next_timer s ∧ sent s1 = sent s
                 ∧ (∀ h t, timers s1 !! h = Some t → timers s !! h = Some t)
                 ∧ (∀ h, reconnectTimeout s1 = Some h → reconnectTimeout s = Some h)).
    { subst s1. destruct (reconnectTimeout s) as [h|] eqn:E; simpl;
        repeat split; try done; try congruence.
      by intros h' t [_ H]%lookup_delete_Some. }
    destruct H1 as (E1 & E2 & E3 & E4 & Ht & Hr).
    destruct W. split; simpl; rewrite ?E1, ?E2, ?E3, ?E4; try done; eauto.
    - intros h t id p H%Ht Ha.
      destruct (wf_timer_request0 h t id p H Ha) as (Hle & Hlt & _).
      by repeat split.
    - intros h H%Hr. destruct (wf_reconnectTimeout0 h H) as [Hlt Hu].
      split; [done|]. eauto. }
  simpl. destruct (ws s1) as [sid|]; [|done].
  assert (W3 := wf_ws_close sid _ W2). wf_same.
Qed.

Lemma event_names_system_stats : "system_stats" ∈ event_names.
Proof. unfold event_names. set_solver. Qed.

Lemma event_names_alerts : "alerts" ∈ event_names.
Proof. unfold event_names. set_solver. Qed.

Lemma event_names_logs : "logs" ∈ event_names.
Proof. unfold event_names. set_solver. Qed.

Lemma wf_step (s : state) (e : event) : wf s → wf (step s e).
Proof.
  intros W. destruct e; simpl.
  - by apply wf_connect.
  - by apply wf_sendRequest.
  - by apply wf_sendRequest.
  - by apply wf_sendRequest.
  - by apply wf_sendRequest.
  - by apply wf_sendRequest.
  - by apply wf_sendRequest, wf_subscribe, event_names_system_stats.
  - by apply wf_sendRequest, wf_subscribe, event_names_alerts.
  - by apply wf_sendRequest, wf_subscribe, event_names_logs.
  - by apply wf_sendRequest, wf_unsubscribe.
  - by apply wf_sendRequest, wf_unsubscribe.
  - by apply wf_sendRequest, wf_unsubscribe.
  - by apply wf_disconnect.
  - destruct (sockets s !! sid) as [[[] c]|] eqn:E; try done.
    unfold onopen. apply wf_resolve_connect.
    assert (W' := wf_set_ready sid OPEN s W). wf_same.
  - destruct (sockets s !! sid) as [[[] c]|] eqn:E; try done.
    by apply wf_handleMessage.
  - destruct (sockets s !! sid) as [[[] c]|] eqn:E; try done;
      unfold onerror; apply wf_reject_connect; wf_same.
  - destruct (sockets s !! sid) as [[[] c]|] eqn:E; try done;
      unfold onclose; apply wf_handleReconnect;
      assert (W' := wf_set_ready sid CLOSED s W); wf_same.
  - destruct (timers s !! h) as [t|] eqn:E; [|done].
    destruct (_ <=? _); [|done]. by apply wf_timer_fire.
  - wf_same.
Qed.

Lemma wf_run (tr : list event) (s : state) : wf s → wf (run s tr).
Proof.
  revert s. induction tr as [|e tr IH]; intros s W; [done|].
  simpl. by apply IH, wf_step.
Qed.

Lemma reachable_wf (s : state) : reachable s → wf s.
Proof. intros (url_ok & tr & ->). apply wf_run, wf_init. Qed.

Lemma run_app (s : state) (tr1 tr2 : list event) :
  run s (tr1 ++ tr2) = run (run s tr1) tr2.
Proof. apply foldl_app. Qed.

Lemma reachable_run (s : state) (tr : list event) :
  reachable s → reachable (run s tr).
Proof.
  intros (url_ok & tr0 & ->). exists url_ok, (tr0 ++ tr). by rewrite run_app.
Qed.

(** ** Request ids (claims C8 and the freshness half of C1) *)

Lemma sendRequest_open (method : string) (params : option json) (s : state)
    (sid : nat) :
  open_socket s = Some sid →
  sendRequest method params s =
    (length (promises s),
     set_timers
       (<[next_timer s :=
            {| t_delay := 10000; t_due := clock s + 10000;
               t_action := RequestTimeout (requestId s + 1) (length (promises s)) |}]>
          (timers s))
       (S (next_timer s))
       (set_sent
          (sent s ++ [(sid, {| req_id := requestId s + 1; req_method := method;
                               req_params := params_or_empty params |})])
          (set_pendingRequests
             (<[requestId s + 1 := length (promises s)]> (pendingRequests s))
             (set_requestId (requestId s + 1)
                (set_promises (promises s ++ [Pending]) s))))).
Proof.
  intros Ho. unfold sendRequest.
  change (open_socket (set_promises (promises s ++ [Pending]) s))
    with (open_socket s).
  by rewrite Ho.
Qed.

Lemma settle_new (p : nat) (o : promise) (s : state) :
  p = length (promises s) →
  settle p o (set_promises (promises s ++ [Pending]) s)
  = set_promises (promises s ++ [o]) s.
Proof.
  intros ->. unfold settle. simpl.
  rewrite list_lookup_middle by done.
  rewrite insert_app_r_alt, Nat.sub_diag by done. reflexivity.
Qed.

Lemma sendRequest_closed (method : string) (params : option json) (s : state) :
  open_socket s = None →
  sendRequest method params s =
    (length (promises s),
     set_promises
       (promises s
          ++ [Rejected (NewError (Some (JStr "WebSocket not connected")))]) s).
Proof.
  intros Ho. unfold sendRequest.
  change (open_socket (set_promises (promises s ++ [Pending]) s))
    with (open_socket s).
  rewrite Ho. unfold reject. by rewrite settle_new.
Qed.

Lemma open_socket_isConnected (s : state) :
  open_socket s = None ↔ isConnected s = false.
Proof.
  unfold open_socket, isConnected.
  destruct (ws s) as [sid|]; [|done].
  destruct (sockets s !! sid) as [[[] c]|]; simpl; split; done.
Qed.

(** C8. Request ids are strictly increasing in the order the requests
    are sent: whenever the service has sent a request at position [i] of
    its output and another at a later position [j], the later one carries
    the strictly greater id, and both ids lie between 1 and the current
    value of the counter [requestId]. The counter is never reset, so this
    holds within every transport session (and across them). *)
Theorem C8_request_ids_strictly_increasing
    (s : state) (i j : nat) (a b : nat * request) :
  reachable s →
  sent s !! i = Some a → sent s !! j = Some b → (i < j)%nat →
  req_id a.2 < req_id b.2
  ∧ 0 < req_id a.2 ∧ req_id b.2 ≤ requestId s.
Proof.
  intros W%reachable_wf Hi Hj Hij.
  pose proof (wf_sent_lt s W i j a b Hi Hj Hij).
  pose proof (wf_sent_le s W i a Hi).
  pose proof (wf_sent_le s W j b Hj).
  lia.
Qed.

Lemma C8_witness :
  let s := run (init true) [Call_connect; Ws_open 0; Call_ping; Call_getServerInfo] in
  sent s !! 0%nat = Some (0%nat, {| req_id := 1; req_method := "ping"; req_params := JObj [] |})
  ∧ sent s !! 1%nat = Some (0%nat, {| req_id := 2; req_method := "get_server_info"; req_params := JObj [] |})
  ∧ 1 < 2.
Proof.
  split; [reflexivity|]. split; [reflexivity|].
  eapply proj1.
  apply (C8_request_ids_strictly_increasing
           (run (init true) [Call_connect; Ws_open 0; Call_ping; Call_getServerInfo])
           0 1 (0%nat, {| req_id := 1; req_method := "ping"; req_params := JObj [] |})
               (0%nat, {| req_id := 2; req_method := "get_server_info"; req_params := JObj [] |})).
  - exists true, [Call_connect; Ws_open 0; Call_ping; Call_getServerInfo]. reflexivity.
  - reflexivity.
  - reflexivity.
  - lia.
Defined.

(** ** Calls made while disconnected (claim C9) *)

(** C9. While the WebSocket is absent or not OPEN ([isConnected] is
    false), [sendRequest], and with it each of the five API methods,
    returns a promise that is already rejected with "WebSocket not
    connected" and leaves every field of the service as it was: the new
    promise is the only difference between the two states, so no
    PendingRequest is registered, no frame is sent, no timer is armed and
    no request id is consumed. The six subscription methods reject in the
    same way and likewise register no PendingRequest, send no frame and
    consume no id. *)
Theorem C9_not_connected_rejects (s : state) :
  isConnected s = false →
  (∀ method params,
     sendRequest method params s
     = (length (promises s),
        set_promises (promises s ++ [not_connected_error]) s))
  ∧ (∀ e, api_call e = true →
       step s e = set_promises (promises s ++ [not_connected_error]) s)
  ∧ (∀ e, is_Some (subscribes_to e) ∨ is_Some (unsubscribes_from e) →
       promises (step s e) = promises s ++ [not_connected_error]
       ∧ pendingRequests (step s e) = pendingRequests s
       ∧ sent (step s e) = sent s
       ∧ requestId (step s e) = requestId s
       ∧ timers (step s e) = timers s).
Proof.
  intros Hc%open_socket_isConnected.
  assert (Hs : ∀ method params,
    sendRequest method params s
    = (length (promises s),
       set_promises (promises s ++ [not_connected_error]) s)).
  { intros. by apply sendRequest_closed. }
  split; [exact Hs|]. split.
  - intros e He. destruct e; try discriminate He; simpl;
      unfold getSystemStats, getProcesses, getLogs, ping, getServerInfo;
      by rewrite Hs.
  - intros e [[name He]|[name He]]; destruct e; try discriminate He; simpl;
      unfold subscribeToSystemStats, subscribeToAlerts, subscribeToLogs,
        unsubscribeFromSystemStats, unsubscribeFromAlerts, unsubscribeFromLogs;
      (rewrite sendRequest_closed by exact Hc); done.
Qed.

Lemma C9_witness :
  isConnected (init true) = false
  ∧ step (init true) Call_ping
    = set_promises [not_connected_error] (init true).
Proof.
  split; [reflexivity|].
  apply (C9_not_connected_rejects (init true)); reflexivity.
Defined.

(** ** Notifications and subscriptions (claims C5, C6, C7) *)

Lemma event_name_nonempty (name : string) :
  name ∈ event_names → truthy (Some (JStr name)) = true.
Proof.
  unfold event_names. intros H.
  repeat (apply elem_of_cons in H as [->|H]; [reflexivity|]).
  by apply elem_of_nil in H.
Qed.

Lemma handle_response_no_id (message : json) (s : state) :
  truthy (prop message "id") = false → handle_response message s = s.
Proof. intros H. unfold handle_response. by rewrite H. Qed.

(** C5. A frame (a JSON object) that carries no id, or one that is
    falsy, takes the notification path only: when a callback is
    registered under the frame's method name, [handleMessage] calls that
    callback once with the frame's params and changes nothing else; when
    none is registered, [handleMessage] returns the state it was given,
    console included. *)
Theorem C5_frames_without_id (s : state) (ms : list (string * json)) :
  reachable s →
  truthy (member "id" ms) = false →
  (∀ name callback,
     member "method" ms = Some (JStr name) →
     subscriptions s !! name = Some callback →
     handleMessage (Some (JObj ms)) s
     = invoke callback (member "params" ms) s)
  ∧ ((∀ name, member "method" ms = Some (JStr name) →
              subscriptions s !! name = None) →
     handleMessage (Some (JObj ms)) s = s).
Proof.
  intros W%reachable_wf Hid. unfold handleMessage.
  rewrite handle_response_no_id by exact Hid.
  unfold handle_notification. simpl. split.
  - intros name cb Hm Hs. rewrite Hm.
    rewrite event_name_nonempty by (eapply wf_subscriptions; eauto).
    simpl. by rewrite Hs.
  - intros Hnone.
    destruct (member "method" ms) as [[|b|n|q|name|items|members]|] eqn:Hm;
      simpl; try done.
    + by destruct b.
    + by destruct (negb _).
    + rewrite (Hnone name eq_refl). by destruct (negb _).
Qed.

Lemma C5_witness :
  let s := run (init true) [Call_connect; Ws_open 0; Call_subscribeToAlerts 4] in
  handleMessage
    (Some (JObj [("jsonrpc", JStr "2.0"); ("method", JStr "alerts");
                 ("params", JObj [("count", JNum 0)])])) s
  = invoke 4 (Some (JObj [("count", JNum 0)])) s.
Proof.
  apply (C5_frames_without_id
           (run (init true) [Call_connect; Ws_open 0; Call_subscribeToAlerts 4])
           [("jsonrpc", JStr "2.0"); ("method", JStr "alerts");
            ("params", JObj [("count", JNum 0)])]) with (name := "alerts").
  - exists true, [Call_connect; Ws_open 0; Call_subscribeToAlerts 4]. reflexivity.
  - reflexivity.
  - reflexivity.
  - reflexivity.
Defined.

Lemma subscriptions_step (s : state) (e : event) :
  subscriptions (step s e) =
    match e with
    | Call_subscribeToSystemStats cb => <["system_stats" := cb]> (subscriptions s)
    | Call_subscribeToAlerts cb => <["alerts" := cb]> (subscriptions s)
    | Call_subscribeToLogs cb => <["logs" := cb]> (subscriptions s)
    | Call_unsubscribeFromSystemStats => delete "system_stats" (subscriptions s)
    | Call_unsubscribeFromAlerts => delete "alerts" (subscriptions s)
    | Call_unsubscribeFromLogs => delete "logs" (subscriptions s)
    | Call_disconnect => ∅
    | _ => subscriptions s
    end.
Proof. destruct e; crunch. Qed.

Lemma subscriptions_subscribe (s : state) (e : event) (name : string) (cb : nat) :
  subscription_of e = Some (name, cb) →
  subscriptions (step s e) = <[name := cb]> (subscriptions s).
Proof.
  intros H. rewrite subscriptions_step.
  destruct e; try discriminate H; by injection H as <- <-.
Qed.

Lemma handle_response_subscriptions (message : json) (s : state) :
  subscriptions (handle_response message s) = subscriptions s
  ∧ invoked (handle_response message s) = invoked s.
Proof. crunch. Qed.

Lemma handleMessage_invoked (ms : list (string * json)) (s : state)
    (name : string) :
  member "method" ms = Some (JStr name) →
  invoked (handleMessage (Some (JObj ms)) s)
  = invoked s ++ match subscriptions s !! name with
                 | Some cb => if truthy (Some (JStr name))
                              then [(cb, member "params" ms)] else []
                 | None => []
                 end.
Proof.
  intros Hm. unfold handleMessage, handle_notification.
  destruct (handle_response_subscriptions (JObj ms) s) as [Es Ei].
  simpl prop. rewrite Hm. simpl string_key. rewrite Es.
  destruct (truthy _), (subscriptions s !! name); simpl;
    rewrite ?Ei, ?app_nil_r; done.
Qed.

Lemma handleMessage_invoked_le (data : option json) (s : state) :
  ∃ l, invoked (handleMessage data s) = invoked s ++ l ∧ (length l ≤ 1)%nat.
Proof.
  assert (Hnil : ∀ s' : state, invoked s' = invoked s →
    ∃ l, invoked s' = invoked s ++ l ∧ (length l ≤ 1)%nat).
  { intros s' E. exists []. rewrite app_nil_r. split; [done|simpl; lia]. }
  unfold handleMessage.
  destruct data as [message|]; [|by apply Hnil].
  assert (H : ∃ l, invoked (handle_notification message (handle_response message s))
                   = invoked s ++ l ∧ (length l ≤ 1)%nat).
  { destruct (handle_response_subscriptions message s) as [_ Ei].
    unfold handle_notification.
    destruct (truthy _); [|by apply Hnil].
    destruct (string_key _); [|by apply Hnil].
    destruct (subscriptions _ !! _); [|by apply Hnil].
    simpl. rewrite Ei. eexists [_]. split; [done|simpl; lia]. }
  destruct message; exact H.
Qed.

(** C6. The subscription table holds one callback per event name.
    Subscribing to an event a second time replaces the entry the first
    call made, so the table is what a single call would have left (and
    subscribing twice with the same callback leaves what subscribing once
    leaves); a notification for that event then runs exactly one
    callback, the one registered last; and no frame whatever makes
    [handleMessage] run more than one callback. *)
Theorem C6_one_callback_per_event
    (s : state) (e1 e2 : event) (name : string) (cb1 cb2 : nat) :
  subscription_of e1 = Some (name, cb1) →
  subscription_of e2 = Some (name, cb2) →
  subscriptions (step (step s e1) e2) = subscriptions (step s e2)
  ∧ subscriptions (step (step s e1) e2) !! name = Some cb2
  ∧ (∀ ms, member "method" ms = Some (JStr name) →
       invoked (handleMessage (Some (JObj ms)) (step (step s e1) e2))
       = invoked (step (step s e1) e2) ++ [(cb2, member "params" ms)])
  ∧ (∀ data s0, ∃ l,
       invoked (handleMessage data s0) = invoked s0 ++ l ∧ (length l ≤ 1)%nat).
Proof.
  intros H1 H2.
  rewrite (subscriptions_subscribe _ e2 name cb2 H2).
  rewrite (subscriptions_subscribe _ e1 name cb1 H1).
  rewrite (subscriptions_subscribe _ e2 name cb2 H2).
  split; [apply insert_insert_eq|]. split; [apply lookup_insert_eq|]. split.
  - intros ms Hm. rewrite (handleMessage_invoked ms _ name Hm).
    rewrite (subscriptions_subscribe _ e2 name cb2 H2), lookup_insert_eq.
    destruct e2; try discriminate H2; by injection H2 as <- <-.
  - intros. apply handleMessage_invoked_le.
Qed.

Lemma C6_witness :
  let s := run (init true) [Call_connect; Ws_open 0] in
  let s2 := step (step s (Call_subscribeToSystemStats 7))
                 (Call_subscribeToSystemStats 7) in
  subscriptions s2 = subscriptions (step s (Call_subscribeToSystemStats 7))
  ∧ invoked (handleMessage
               (Some (JObj [("method", JStr "system_stats");
                            ("params", JNum 42)])) s2)
    = invoked s2 ++ [(7%nat, Some (JNum 42))].
Proof.
  destruct (C6_one_callback_per_event
              (run (init true) [Call_connect; Ws_open 0])
              (Call_subscribeToSystemStats 7) (Call_subscribeToSystemStats 7)
              "system_stats" 7 7 eq_refl eq_refl) as (H1 & _ & H3 & _).
  split; [exact H1|].
  apply (H3 [("method", JStr "system_stats"); ("params", JNum 42)]).
  reflexivity.
Defined.

Lemma unsubscribed_step (s : state) (e : event) (name : string) :
  subscriptions s !! name = None →
  subscribes_to e ≠ Some name →
  subscriptions (step s e) !! name = None.
Proof.
  intros Hn He. rewrite subscriptions_step.
  destruct e; try done; unfold subscribes_to in He; simpl in He;
    try (rewrite lookup_insert_ne by congruence; done);
    try (by rewrite lookup_delete_None; right).
Qed.

Lemma unsubscribed_run (tr : list event) (s : state) (name : string) :
  subscriptions s !! name = None →
  Forall (λ e, subscribes_to e ≠ Some name) tr →
  subscriptions (run s tr) !! name = None.
Proof.
  revert s. induction tr as [|e tr IH]; intros s Hn Htr; [done|].
  apply Forall_cons in Htr as [He Htr]. simpl.
  apply IH; [by apply unsubscribed_step|done].
Qed.

(** C7. Once an unsubscription method has been called for an event, and
    for as long as the application does not subscribe to that event
    again, the table has no callback for it; whatever else happens in
    between, a notification for that event, handed to [handleMessage]
    directly or delivered on any socket, runs no callback at all. *)
Theorem C7_unsubscribed_event_not_delivered
    (s : state) (e : event) (name : string) (tr : list event)
    (sid : nat) (ms : list (string * json)) :
  unsubscribes_from e = Some name →
  Forall (λ e', subscribes_to e' ≠ Some name) tr →
  member "method" ms = Some (JStr name) →
  subscriptions (run (step s e) tr) !! name = None
  ∧ invoked (handleMessage (Some (JObj ms)) (run (step s e) tr))
    = invoked (run (step s e) tr)
  ∧ invoked (step (run (step s e) tr) (Ws_message sid (Some (JObj ms))))
    = invoked (run (step s e) tr).
Proof.
  intros He Htr Hm.
  assert (Hn : subscriptions (run (step s e) tr) !! name = None).
  { apply unsubscribed_run; [|done]. rewrite subscriptions_step.
    destruct e; try discriminate He; injection He as <-;
      apply lookup_delete_eq. }
  assert (Hh : invoked (handleMessage (Some (JObj ms)) (run (step s e) tr))
               = invoked (run (step s e) tr)).
  { rewrite (handleMessage_invoked ms _ name Hm), Hn. apply app_nil_r. }
  split; [done|]. split; [done|].
  simpl. unfold onmessage.
  destruct (sockets _ !! sid) as [[[] c]|]; done.
Qed.

Lemma C7_witness :
  let s := run (init true)
             [Call_connect; Ws_open 0; Call_subscribeToSystemStats 7] in
  let s' := run (step s Call_unsubscribeFromSystemStats)
              [Call_ping; Call_subscribeToAlerts 7] in
  invoked (step s' (Ws_message 0
             (Some (JObj [("method", JStr "system_stats"); ("params", JNum 42)]))))
  = invoked s'.
Proof.
  apply (C7_unsubscribed_event_not_delivered
           (run (init true) [Call_connect; Ws_open 0; Call_subscribeToSystemStats 7])
           Call_unsubscribeFromSystemStats "system_stats"
           [Call_ping; Call_subscribeToAlerts 7] 0
           [("method", JStr "system_stats"); ("params", JNum 42)]).
  - reflexivity.
  - repeat constructor; discriminate.
  - reflexivity.
Defined.

(** ** Request correlation (claim C1) *)

Lemma requestId_step (s : state) (e : event) :
  requestId s ≤ requestId (step s e).
Proof. destruct e; crunch; lia. Qed.

Lemma purged_step (s : state) (e : event) (id : Z) :
  id ≤ requestId s → pendingRequests s !! id = None →
  pendingRequests (step s e) !! id = None.
Proof.
  intros Hle Hn.
  destruct e; crunch;
    rewrite ?lookup_insert_ne by lia; try done;
    try (apply lookup_delete_None; by right).
Qed.

Lemma purged_run (tr : list event) (s : state) (id : Z) :
  id ≤ requestId s → pendingRequests s !! id = None →
  pendingRequests (run s tr) !! id = None.
Proof.
  revert s. induction tr as [|e tr IH]; intros s Hle Hn; [done|].
  simpl. apply IH; [|by apply purged_step].
  pose proof (requestId_step s e). lia.
Qed.

Lemma settled_step (s : state) (e : event) (p : nat) (o : promise) :
  promises s !! p = Some o → o ≠ Pending →
  promises (step s e) !! p = Some o.
Proof.
  intros Hp Ho.
  assert (Hlt : (p < length (promises s))%nat) by (by eapply lookup_lt_Some).
  destruct e; crunch.
  all: try (rewrite list_lookup_insert_ne by (lia || congruence)).
  all: try (apply lookup_app_l_Some).
  all: try done.
Qed.

Lemma settled_run (tr : list event) (s : state) (p : nat) (o : promise) :
  promises s !! p = Some o → o ≠ Pending →
  promises (run s tr) !! p = Some o.
Proof.
  revert s. induction tr as [|e tr IH]; intros s Hp Ho; [done|].
  simpl. apply IH; [|done]. by apply settled_step.
Qed.

Lemma settle_pending (p : nat) (o : promise) (s : state) :
  promises s !! p = Some Pending →
  settle p o s = set_promises (<[p := o]> (promises s)) s.
Proof. intros H. unfold settle. by rewrite H. Qed.

Lemma handle_notification_frame (message : json) (s : state) :
  promises (handle_notification message s) = promises s
  ∧ pendingRequests (handle_notification message s) = pendingRequests s.
Proof. crunch. Qed.

Lemma handle_response_unknown (ms : list (string * json)) (id : Z) (s : state) :
  member "id" ms = Some (JNum id) → pendingRequests s !! id = None →
  handle_response (JObj ms) s = s.
Proof.
  intros Hid Hn. unfold handle_response. simpl. rewrite Hid. simpl.
  rewrite Hn. by destruct (negb _).
Qed.

Lemma handle_response_matching
    (ms : list (string * json)) (id : Z) (p : nat) (s : state) :
  wf s → member "id" ms = Some (JNum id) → pendingRequests s !! id = Some p →
  handle_response (JObj ms) s
  = set_promises
      (<[p := if truthy (member "error" ms)
              then Rejected (NewError (member "error" ms ≫= λ e, prop e "message"))
              else Fulfilled (member "result" ms)]> (promises s))
      (set_pendingRequests (delete id (pendingRequests s)) s).
Proof.
  intros W Hid Hp. unfold handle_response. simpl. rewrite Hid. simpl.
  assert (0 < id) by (eapply wf_pending_id; eauto).
  replace (id =? 0) with false by lia. simpl. rewrite Hp.
  unfold reject, resolve.
  destruct (truthy (member "error" ms));
    rewrite settle_pending; try done; simpl; by eapply wf_pending_promise.
Qed.

Lemma timeout_early (s : state) (h : nat) (t : timer) :
  timers s !! h = Some t → clock s < t_due t → step s (Timer_fire h) = s.
Proof.
  intros Ht Hd. simpl. rewrite Ht.
  by replace (t_due t <=? clock s) with false by lia.
Qed.

Lemma timeout_fires (s : state) (h : nat) (t : timer) (id : Z) (p p' : nat) :
  wf s → timers s !! h = Some t → t_action t = RequestTimeout id p →
  pendingRequests s !! id = Some p' → t_due t ≤ clock s →
  p' = p
  ∧ step s (Timer_fire h)
    = set_promises
        (<[p := Rejected (NewError (Some (JStr "Request timeout")))]> (promises s))
        (set_pendingRequests (delete id (pendingRequests s)) (clearTimeout h s)).
Proof.
  intros W Ht Ha Hp Hd.
  assert (p' = p) as -> by (eapply wf_timer_request; eauto).
  split; [done|]. simpl. rewrite Ht, Ha.
  replace (t_due t <=? clock s) with true by lia.
  simpl. unfold request_timeout. simpl. rewrite Hp.
  unfold reject. rewrite settle_pending; [done|].
  simpl. by eapply wf_pending_promise.
Qed.

(** C1. The life of a request, in every state [s] the service can reach.
    - Send. With the socket open, [sendRequest] takes the id
      [requestId + 1], which no entry of the pending map and no request
      sent before carries; it registers the new, pending promise under
      that id, writes the frame to the socket, and arms a timer of
      10000 ms for exactly this id and promise.
    - Response. A frame whose id is that of an entry and whose [error]
      is absent or falsy fulfils the entry's promise with the frame's
      [result] and deletes the entry.
    - Error. The same frame with a truthy [error] rejects the promise
      with [new Error(error.message)] and deletes the entry.
    - Timeout. Every entry has its 10000 ms timer armed. The timer does
      nothing before it is due; when it fires with the entry still
      there, it rejects that entry's promise with "Request timeout" and
      deletes the entry.
    - Afterwards. An id that has been handed out and has no entry never
      has an entry again, whatever happens later; a frame carrying it
      leaves the state untouched, so it settles nothing and reaches no
      other request; and a promise that has been settled keeps its
      outcome for ever. *)
Theorem C1_request_lifecycle (s : state) :
  reachable s →
  (* send *)
  (∀ method params sid,
     open_socket s = Some sid →
     let id := requestId s + 1 in
     let p := length (promises s) in
     let s' := (sendRequest method params s).2 in
     (sendRequest method params s).1 = p
     ∧ pendingRequests s !! id = None
     ∧ (∀ i a, sent s !! i = Some a → req_id a.2 < id)
     ∧ pendingRequests s' = <[id := p]> (pendingRequests s)
     ∧ promises s' = promises s ++ [Pending]
     ∧ sent s' = sent s ++ [(sid, {| req_id := id; req_method := method;
                                     req_params := params_or_empty params |})]
     ∧ timers s !! next_timer s = None
     ∧ timers s' = <[next_timer s :=
                       {| t_delay := 10000; t_due := clock s + 10000;
                          t_action := RequestTimeout id p |}]> (timers s))
  (* response and error *)
  ∧ (∀ id p ms,
       pendingRequests s !! id = Some p →
       member "id" ms = Some (JNum id) →
       let s' := handleMessage (Some (JObj ms)) s in
       promises s !! p = Some Pending
       ∧ pendingRequests s' = delete id (pendingRequests s)
       ∧ promises s' =
           <[p := if truthy (member "error" ms)
                  then Rejected (NewError (member "error" ms
                                             ≫= λ e, prop e "message"))
                  else Fulfilled (member "result" ms)]> (promises s))
  (* timeout *)
  ∧ (∀ id p,
       pendingRequests s !! id = Some p →
       ∃ h t, timers s !! h = Some t ∧ t_action t = RequestTimeout id p
              ∧ t_delay t = 10000)
  ∧ (∀ h t, timers s !! h = Some t → clock s < t_due t →
            step s (Timer_fire h) = s)
  ∧ (∀ h t id p p',
       timers s !! h = Some t → t_action t = RequestTimeout id p →
       pendingRequests s !! id = Some p' → t_due t ≤ clock s →
       let s' := step s (Timer_fire h) in
       p' = p
       ∧ pendingRequests s' = delete id (pendingRequests s)
       ∧ promises s' =
           <[p := Rejected (NewError (Some (JStr "Request timeout")))]>
             (promises s))
  (* afterwards *)
  ∧ (∀ id tr,
       id ≤ requestId s → pendingRequests s !! id = None →
       pendingRequests (run s tr) !! id = None
       ∧ ∀ ms, member "id" ms = Some (JNum id) →
               handle_response (JObj ms) (run s tr) = run s tr)
  ∧ (∀ p o tr,
       promises s !! p = Some o → o ≠ Pending →
       promises (run s tr) !! p = Some o).
Proof.
  intros W%reachable_wf. repeat apply conj.
  - intros method params sid Ho id p s'. subst s'.
    rewrite (sendRequest_open _ _ _ sid Ho). simpl.
    repeat apply conj; try reflexivity.
    + destruct (pendingRequests s !! id) as [q|] eqn:E; [|done].
      apply (wf_pending_id s W) in E. subst id. lia.
    + intros i a Ha. apply (wf_sent_le s W) in Ha. subst id. lia.
    + destruct (timers s !! next_timer s) as [t|] eqn:E; [|done].
      apply (wf_timer_handle s W) in E. lia.
  - intros id p ms Hp Hid s'. subst s'. unfold handleMessage.
    destruct (handle_notification_frame (JObj ms) (handle_response (JObj ms) s))
      as [-> ->].
    rewrite (handle_response_matching ms id p s W Hid Hp). simpl.
    repeat apply conj; try reflexivity. by eapply wf_pending_promise.
  - intros id p Hp. by eapply wf_pending_timer.
  - intros h t. apply timeout_early.
  - intros h t id p p' Ht Ha Hp Hd s'. subst s'.
    destruct (timeout_fires s h t id p p' W Ht Ha Hp Hd) as [-> ->].
    by repeat apply conj.
  - intros id tr Hle Hn.
    assert (Hr := purged_run tr s id Hle Hn).
    split; [done|]. intros ms Hid. by eapply handle_response_unknown.
  - intros p o tr. apply settled_run.
Qed.

Lemma C1_witness :
  let s := run (init true) [Call_connect; Ws_open 0; Call_ping] in
  let reply := [("jsonrpc", JStr "2.0"); ("id", JNum 1);
                ("result", JObj [("status", JStr "ok")])] in
  pendingRequests s !! 1 = Some 0%nat
  ∧ promises (handleMessage (Some (JObj reply)) s)
    = <[0%nat := Fulfilled (Some (JObj [("status", JStr "ok")]))]> (promises s)
  ∧ pendingRequests (handleMessage (Some (JObj reply)) s)
    = delete 1 (pendingRequests s).
Proof.
  split; [reflexivity|].
  destruct (C1_request_lifecycle
              (run (init true) [Call_connect; Ws_open 0; Call_ping]))
    as (_ & Hreply & _).
  - exists true, [Call_connect; Ws_open 0; Call_ping]. reflexivity.
  - destruct (Hreply 1 0%nat
                [("jsonrpc", JStr "2.0"); ("id", JNum 1);
                 ("result", JObj [("status", JStr "ok")])])
      as (_ & Hm & Hp).
    + reflexivity.
    + reflexivity.
    + split; [exact Hp|exact Hm].
Defined.

(** ** Disconnecting (claim C10) *)

Lemma abandoned_ext (p : nat) (s s' : state) :
  promises s' = promises s → pendingRequests s' = pendingRequests s →
  abandoned p s → abandoned p s'.
Proof. intros E1 E2 [H1 H2]. split; rewrite ?E1, ?E2; done. Qed.

Lemma abandoned_settle (p q : nat) (o : promise) (s : state) :
  q ≠ p → abandoned p s → abandoned p (settle q o s).
Proof.
  intros Hne [H1 H2]. unfold settle.
  destruct (promises s !! q) as [[| |]|]; try done.
  split; simpl; [|done]. by rewrite list_lookup_insert_ne.
Qed.

Lemma abandoned_delete (p : nat) (k : Z) (s : state) :
  abandoned p s →
  abandoned p (set_pendingRequests (delete k (pendingRequests s)) s).
Proof.
  intros [H1 H2]. split; simpl; [done|].
  intros id [_ H]%lookup_delete_Some. by apply (H2 id).
Qed.

Lemma abandoned_sendRequest (p : nat) (method : string) (params : option json)
    (s : state) :
  abandoned p s → abandoned p (sendRequest method params s).2.
Proof.
  intros [H1 H2].
  assert (Hlt : (p < length (promises s))%nat) by (by eapply lookup_lt_Some).
  destruct (open_socket s) as [sid|] eqn:Ho.
  - rewrite (sendRequest_open _ _ _ sid Ho). split; simpl.
    + by apply lookup_app_l_Some.
    + intros id [[_ E]|[_ H]]%lookup_insert_Some; [lia|]. by apply (H2 id).
  - rewrite (sendRequest_closed _ _ _ Ho). split; simpl; [|done].
    by apply lookup_app_l_Some.
Qed.

Lemma abandoned_handleMessage (p : nat) (data : option json) (s : state) :
  abandoned p s → abandoned p (handleMessage data s).
Proof.
  intros A.
  assert (Hr : ∀ message, abandoned p (handle_response message s)).
  { intros message. unfold handle_response.
    destruct (truthy _); [|done].
    destruct (number_key _) as [k|]; [|done].
    destruct (pendingRequests s !! k) as [q|] eqn:Hk; [|done].
    assert (q ≠ p) by (intros ->; by apply (proj2 A k)).
    simpl. destruct (truthy _);
      by apply abandoned_settle, abandoned_delete. }
  assert (Hn : ∀ message,
    abandoned p (handle_notification message (handle_response message s))).
  { intros message.
    destruct (handle_notification_frame message (handle_response message s))
      as [E1 E2].
    by apply (abandoned_ext p (handle_response message s)). }
  unfold handleMessage. destruct data as [[]|]; try apply Hn;
    by apply (abandoned_ext p s).
Qed.

Lemma abandoned_timer_fire (p h : nat) (t : timer) (s : state) :
  wf s → timers s !! h = Some t → abandoned p s →
  abandoned p (run_timer (t_action t) (clearTimeout h s)).
Proof.
  intros W Ht A. destruct (t_action t) as [id q|] eqn:Ha; simpl.
  - unfold request_timeout. simpl.
    destruct (pendingRequests s !! id) as [q'|] eqn:Hq.
    + assert (q' = q) as -> by (eapply wf_timer_request; eauto).
      assert (q ≠ p) by (intros ->; by apply (proj2 A id)).
      apply abandoned_settle; [done|].
      by apply (abandoned_delete p id (clearTimeout h s)),
               (abandoned_ext p s).
    + by apply (abandoned_ext p s).
  - apply (abandoned_ext p s); [crunch..|done].
Qed.

Lemma abandoned_step (p : nat) (s : state) (e : event) :
  wf s → abandoned p s → abandoned p (step s e).
Proof.
  intros W A. destruct e; simpl;
    try (by apply abandoned_sendRequest);
    try (by apply abandoned_sendRequest, (abandoned_ext p s)).
  - apply (abandoned_ext p s); [crunch..|done].
  - destruct A as [H1 H2]. split; [|crunch].
    replace (promises (disconnect s)) with (promises s) by crunch. done.
  - apply (abandoned_ext p s); [crunch..|done].
  - destruct (sockets s !! sid) as [[[] c]|]; try done.
    by apply abandoned_handleMessage.
  - apply (abandoned_ext p s); [crunch..|done].
  - apply (abandoned_ext p s); [crunch..|done].
  - destruct (timers s !! h) as [t|] eqn:Ht; [|done].
    destruct (_ <=? _); [|done]. by apply abandoned_timer_fire.
  - by apply (abandoned_ext p s).
Qed.

Lemma abandoned_run (p : nat) (tr : list event) (s : state) :
  wf s → abandoned p s → abandoned p (run s tr).
Proof.
  revert s. induction tr as [|e tr IH]; intros s W A; [done|].
  simpl. apply IH; [by apply wf_step|by apply abandoned_step].
Qed.

Lemma disconnect_fields (s : state) :
  pendingRequests (disconnect s) = ∅
  ∧ subscriptions (disconnect s) = ∅
  ∧ reconnectTimeout (disconnect s) = None
  ∧ ws (disconnect s) = None
  ∧ promises (disconnect s) = promises s
  ∧ timers (disconnect s)
    = match reconnectTimeout s with
      | Some h => delete h (timers s)
      | None => timers s
      end.
Proof. crunch. Qed.

Lemma one_connection_mono (s s' : state) :
  sockets s' = sockets s → reconnectTimeout s' = reconnectTimeout s →
  (∀ h t, timers s' !! h = Some t → t_action t = Reconnect →
          timers s !! h = Some t) →
  one_connection s → one_connection s'.
Proof.
  intros Es Er Ht (A & B & C). repeat split.
  - intros h t H Ha. rewrite Er. eauto.
  - intros h t sid sk H Ha. rewrite Es. eauto.
  - rewrite Es. exact C.
Qed.

Lemma sendRequest_reconnect_timers (method : string) (params : option json)
    (s : state) :
  sockets (sendRequest method params s).2 = sockets s
  ∧ reconnectTimeout (sendRequest method params s).2 = reconnectTimeout s
  ∧ ∀ h t, timers (sendRequest method params s).2 !! h = Some t →
           t_action t = Reconnect → timers s !! h = Some t.
Proof.
  destruct (open_socket s) as [sid|] eqn:Ho.
  - rewrite (sendRequest_open _ _ _ sid Ho). simpl. repeat split.
    by intros h t [[<- <-]|[_ H]]%lookup_insert_Some.
  - rewrite (sendRequest_closed _ _ _ Ho). by simpl.
Qed.

Lemma one_connection_sendRequest (method : string) (params : option json)
    (s : state) :
  one_connection s → one_connection (sendRequest method params s).2.
Proof.
  destruct (sendRequest_reconnect_timers method params s) as (E1 & E2 & E3).
  by apply one_connection_mono.
Qed.

Lemma one_connection_ext (s s' : state) :
  sockets s' = sockets s → reconnectTimeout s' = reconnectTimeout s →
  timers s' = timers s → one_connection s → one_connection s'.
Proof.
  intros Es Er Et. apply one_connection_mono; try done.
  intros h t. by rewrite Et.
Qed.

Lemma one_connection_set_ready (sid : nat) (sk : socket) (r : readyState) (s : state) :
  sockets s !! sid = Some sk → sk_ready sk ≠ CLOSED → r ≠ CLOSED →
  (∀ i j ski skj, sockets s !! i = Some ski → sockets s !! j = Some skj →
       sk_ready ski ≠ CLOSED → sk_ready skj ≠ CLOSED → i = j) →
  (∀ i j ski skj, sockets (set_ready sid r s) !! i = Some ski →
       sockets (set_ready sid r s) !! j = Some skj →
       sk_ready ski ≠ CLOSED → sk_ready skj ≠ CLOSED → i = j).
Proof.
  intros Hs Hl Hr C i j ski skj. unfold set_ready. rewrite Hs. simpl.
  intros [(-> & <- & _)|[_ Hi]]%list_lookup_insert_Some
         [(-> & <- & _)|[_ Hj]]%list_lookup_insert_Some; simpl; eauto.
Qed.

Lemma disconnect_sockets (s : state) :
  sockets (disconnect s)
  = sockets match ws s with
            | Some sid => ws_close sid s
            | None => s
            end.
Proof.
  unfold disconnect.
  destruct (reconnectTimeout s) as [h|]; simpl;
    destruct (ws s) as [sid|]; simpl; try done;
    unfold ws_close, set_ready; simpl;
    destruct (sockets s !! sid) as [[[] c]|]; done.
Qed.

Lemma one_connection_no_timer (s : state) :
  (∀ h t, timers s !! h = Some t → t_action t ≠ Reconnect) →
  (∀ i j ski skj, sockets s !! i = Some ski → sockets s !! j = Some skj →
       sk_ready ski ≠ CLOSED → sk_ready skj ≠ CLOSED → i = j) →
  one_connection s.
Proof.
  intros Hnone C. split; [|split; [|exact C]].
  - intros h t Ht Ha. by destruct (Hnone h t Ht).
  - intros h t sid sk Ht Ha. by destruct (Hnone h t Ht).
Qed.

Lemma one_connection_all_closed (s : state) :
  reconnect_tracked s →
  (∀ i ski, sockets s !! i = Some ski → sk_ready ski = CLOSED) →
  one_connection s.
Proof.
  intros A Hc. split; [exact A|split].
  - intros h t sid sk _ _. apply Hc.
  - intros i j ski skj Hi Hj Hli. by destruct Hli; apply (Hc i).
Qed.

Lemma one_connection_step (s : state) (e : event) :
  one_connection s → e ≠ Call_connect → one_connection (step s e).
Proof.
  intros X He. destruct e; try done; simpl;
    try (by apply one_connection_sendRequest);
    try (by apply one_connection_sendRequest, (one_connection_ext s)).
  - (* disconnect *)
    destruct X as (A & B & C). apply one_connection_no_timer.
    + intros h t. destruct (disconnect_fields s) as (_ & _ & _ & _ & _ & ->).
      intros Ht Ha. destruct (reconnectTimeout s) as [h0|] eqn:Hr.
      * apply lookup_delete_Some in Ht as [Hne Ht].
        specialize (A h t Ht Ha). congruence.
      * specialize (A h t Ht Ha). congruence.
    + rewrite disconnect_sockets.
      destruct (ws s) as [sid|]; [|done].
      unfold ws_close.
      destruct (sockets s !! sid) as [sk|] eqn:Hsk; [|done].
      destruct (sk_ready sk) eqn:Hr; try done;
        apply (one_connection_set_ready sid sk); try done; by rewrite Hr.
  - (* open *)
    destruct (sockets s !! sid) as [[[] c]|] eqn:Hsk; try done.
    destruct X as (A & B & C).
    assert (E : sockets (onopen c (set_ready sid OPEN s)) = sockets (set_ready sid OPEN s)
                ∧ timers (onopen c (set_ready sid OPEN s)) = timers s)
      by crunch.
    destruct E as (Es & Et).
    apply one_connection_no_timer.
    + rewrite Et. intros h t Ht Ha. by specialize (B h t sid _ Ht Ha Hsk).
    + rewrite Es. by apply (one_connection_set_ready sid _ OPEN s Hsk).
  - (* message *)
    destruct (sockets s !! sid) as [[[] c]|]; try done.
    apply (one_connection_ext s); [crunch..|done].
  - (* error *)
    destruct (sockets s !! sid) as [[[] c]|]; try done;
      (apply (one_connection_ext s); [crunch..|done]).
  - (* close *)
    destruct (sockets s !! sid) as [sk|] eqn:Hsk; [|done].
    destruct X as (A & B & C).
    assert (Hgo : sk_ready sk ≠ CLOSED →
                  one_connection (onclose (set_ready sid CLOSED s))).
    { intros Hl.
      assert (Hnone : ∀ h t, timers s !! h = Some t → t_action t ≠ Reconnect).
      { intros h t Ht Ha. by specialize (B h t sid _ Ht Ha Hsk). }
      assert (E : ∃ tm rt,
        sockets (onclose (set_ready sid CLOSED s)) = sockets (set_ready sid CLOSED s)
        ∧ timers (onclose (set_ready sid CLOSED s)) = tm
        ∧ reconnectTimeout (onclose (set_ready sid CLOSED s)) = rt
        ∧ ((tm = timers s ∧ rt = reconnectTimeout s)
           ∨ ∃ t, tm = <[next_timer s := t]> (timers s)
                  ∧ rt = Some (next_timer s))).
      { unfold onclose, handleReconnect.
        destruct (_ <? _); eexists _, _; simpl; unfold set_ready;
          rewrite Hsk; simpl;
          (split; [reflexivity|split; [reflexivity|split; [reflexivity|]]]);
          [right; eauto|left; done]. }
      destruct E as (tm & rt & Es & Et & Er & Hcase).
      apply one_connection_all_closed.
      - unfold reconnect_tracked. rewrite Et, Er.
        intros h t Ht Ha. destruct Hcase as [[-> ->]|(t0 & -> & ->)].
        + by destruct (Hnone h t Ht).
        + apply lookup_insert_Some in Ht as [[<- _]|[_ Ht]]; [done|].
          by destruct (Hnone h t Ht).
      - rewrite Es. intros i ski. unfold set_ready. rewrite Hsk. simpl.
        intros [(-> & <- & _)|[Hne Hi]]%list_lookup_insert_Some; [done|].
        destruct (decide (sk_ready ski = CLOSED)) as [|Hn]; [done|].
        by destruct Hne; apply (C sid i sk ski). }
    destruct sk as [[] c]; try done; by apply Hgo.
  - (* timer *)
    destruct (timers s !! h) as [t|] eqn:Ht; [|done].
    destruct (_ <=? _); [|done].
    destruct (t_action t) as [id p|] eqn:Ha; simpl.
    + apply (one_connection_mono s); [crunch..| |done].
      intros h' t'.
      replace (timers (request_timeout id p (clearTimeout h s)))
        with (delete h (timers s)) by crunch.
      by intros [_ H]%lookup_delete_Some.
    + destruct X as (A & B & C).
      assert (Hclosed : ∀ i ski, sockets s !! i = Some ski → sk_ready ski = CLOSED)
        by (intros i ski; by apply (B h t)).
      assert (Et : timers (reconnect_timer (clearTimeout h s)) = delete h (timers s))
        by crunch.
      apply one_connection_no_timer.
      * rewrite Et. intros h' t' [Hne Ht']%lookup_delete_Some Ha'.
        pose proof (A h t Ht Ha). pose proof (A h' t' Ht' Ha'). congruence.
      * assert (Es : sockets (reconnect_timer (clearTimeout h s)) = sockets s
                     ∨ ∃ sk, sockets (reconnect_timer (clearTimeout h s))
                             = sockets s ++ [sk]).
        { unfold reconnect_timer, connect. simpl.
          destruct (url_valid s); simpl; [right; eauto|left; crunch]. }
        destruct Es as [->|[sk ->]].
        -- intros i j ski skj Hi Hj Hli. by destruct Hli; apply (Hclosed i).
        -- intros i j ski skj [Hi|[Hi1 Hi2]]%lookup_app_Some
             [Hj|[Hj1 Hj2]]%lookup_app_Some Hli Hlj.
           ++ by destruct Hli; apply (Hclosed i).
           ++ by destruct Hli; apply (Hclosed i).
           ++ by destruct Hlj; apply (Hclosed j).
           ++ apply list_lookup_singleton_Some in Hi2 as [? _].
              apply list_lookup_singleton_Some in Hj2 as [? _]. lia.
Qed.

Lemma one_connection_run (tr : list event) (s : state) :
  one_connection s → Forall (λ e, e ≠ Call_connect) tr →
  one_connection (run s tr).
Proof.
  revert s. induction tr as [|e tr IH]; intros s X Htr; [done|].
  apply Forall_cons in Htr as [He Htr]. simpl.
  apply IH; [by apply one_connection_step|done].
Qed.

Lemma one_connection_first (url_ok : bool) :
  one_connection (step (init url_ok) Call_connect).
Proof.
  apply one_connection_no_timer.
  - intros h t. replace (timers (step (init url_ok) Call_connect)) with (∅ : gmap nat timer)
      by (destruct url_ok; reflexivity).
    by rewrite lookup_empty.
  - destruct url_ok; simpl.
    + intros [|i] [|j] ski skj; simpl; try done.
    + intros i j ski skj; by rewrite lookup_nil.
Qed.

(** C10 as stated fails: a reconnect that was scheduled can survive
    [disconnect()]. The service keeps one timer handle, the latest. After
    a second [connect()] both sockets can be lost in turn; each loss
    schedules a reconnect (handles 1 and 2) and [reconnectTimeout] holds
    2 only. [disconnect()] then cancels timer 2; timer 1 stays in the
    queue, and when it runs out the service connects again. *)
Lemma C10_counterexample :
  let s := run (init true) two_connections in
  reachable s
  ∧ reconnectTimeout s = Some 2%nat
  ∧ ¬ no_reconnect_scheduled (disconnect s)
  ∧ isConnected (run (disconnect s) [Elapse 2000; Timer_fire 1; Ws_open 2])
    = true.
Proof.
  split; [by exists true, two_connections|].
  split; [reflexivity|]. split; [|reflexivity].
  intros H.
  apply (H 1%nat {| t_delay := 2000; t_due := 2000; t_action := Reconnect |});
    reflexivity.
Qed.

(** C10, as the code has it. Right after [disconnect()] the
    pending-request map and the subscription map are empty, [this.ws] is
    null so that [isConnected()] is false, and [reconnectTimeout] is null
    with the one timer it named removed from the timer queue; every other
    timer is left in the queue. So the scheduled reconnect is cancelled
    when the reconnect timers in the queue are the one the service keeps
    track of, which is the case in every run where the application has
    called [connect()] once; then no reconnect timer is left. A request
    that was pending when [disconnect()] was called is never settled:
    whatever events follow, responses with its id and its own 10-second
    timer included, its promise stays pending. *)
Theorem C10_disconnect (s : state) :
  reachable s →
  pendingRequests (disconnect s) = ∅
  ∧ subscriptions (disconnect s) = ∅
  ∧ reconnectTimeout (disconnect s) = None
  ∧ timers (disconnect s)
    = match reconnectTimeout s with
      | Some h => delete h (timers s)
      | None => timers s
      end
  ∧ (∀ h, reconnectTimeout s = Some h → timers (disconnect s) !! h = None)
  ∧ (reconnect_tracked s →
     ∀ h t, timers (disconnect s) !! h = Some t → t_action t ≠ Reconnect)
  ∧ (∀ url_ok tr,
       s = run (init url_ok) (Call_connect :: tr) →
       Forall (λ e, e ≠ Call_connect) tr →
       ∀ h t, timers (disconnect s) !! h = Some t → t_action t ≠ Reconnect)
  ∧ isConnected (disconnect s) = false
  ∧ (∀ id p tr,
       pendingRequests s !! id = Some p →
       promises (run (disconnect s) tr) !! p = Some Pending).
Proof.
  intros W%reachable_wf.
  destruct (disconnect_fields s) as (Ep & Es & Er & Ew & Epr & Et).
  assert (Hnone : reconnect_tracked s →
    ∀ h t, timers (disconnect s) !! h = Some t → t_action t ≠ Reconnect).
  { intros Htracked h t. rewrite Et. intros Ht Ha.
    destruct (reconnectTimeout s) as [h'|] eqn:Hr.
    - apply lookup_delete_Some in Ht as [Hne Ht].
      specialize (Htracked h t Ht Ha). congruence.
    - specialize (Htracked h t Ht Ha). congruence. }
  repeat apply conj; try done.
  - intros h Hh. rewrite Et, Hh. apply lookup_delete_eq.
  - intros url_ok tr -> Htr. apply Hnone.
    apply (one_connection_run tr (step (init url_ok) Call_connect));
      [apply one_connection_first|done].
  - unfold isConnected. by rewrite Ew.
  - intros id p tr Hp.
    apply (abandoned_run p tr (disconnect s)); [by apply wf_disconnect|].
    split.
    + rewrite Epr. by eapply wf_pending_promise.
    + intros id'. by rewrite Ep, lookup_empty.
Qed.

Lemma C10_witness :
  let s := run (init true) [Call_connect; Ws_open 0; Call_ping] in
  let reply := Some (JObj [("id", JNum 1); ("result", JStr "late")]) in
  pendingRequests s !! 1 = Some 0%nat
  ∧ pendingRequests (disconnect s) = ∅
  ∧ isConnected (disconnect s) = false
  ∧ promises (run (disconnect s)
                [Ws_message 0 reply; Elapse 10000; Timer_fire 1]) !! 0%nat
    = Some Pending.
Proof.
  split; [reflexivity|].
  destruct (C10_disconnect
              (run (init true) [Call_connect; Ws_open 0; Call_ping]))
    as (Hp & _ & _ & _ & _ & _ & _ & Hc & Hnever).
  - exists true, [Call_connect; Ws_open 0; Call_ping]. reflexivity.
  - split; [exact Hp|]. split; [exact Hc|].
    apply (Hnever 1). reflexivity.
Defined.

(** ** The reconnect schedule (claim C2) *)

Lemma handleReconnect_retry (s : state) :
  reconnectAttempts s < maxReconnectAttempts s →
  handleReconnect s
  = let attempt := reconnectAttempts s + 1 in
    let delay := Z.min (1000 * 2 ^ attempt) 30000 in
    set_reconnectTimeout (Some (next_timer s))
      (set_timers
         (<[next_timer s := {| t_delay := delay; t_due := clock s + delay;
                               t_action := Reconnect |}]> (timers s))
         (S (next_timer s))
         (log (console_log_reconnect delay attempt (maxReconnectAttempts s))
            (set_reconnectAttempts attempt s))).
Proof.
  intros H. unfold handleReconnect.
  by replace (reconnectAttempts s <? maxReconnectAttempts s) with true by lia.
Qed.

Lemma handleReconnect_give_up (s : state) :
  maxReconnectAttempts s ≤ reconnectAttempts s →
  handleReconnect s
  = log (console_error "Max reconnection attempts reached") s.
Proof.
  intros H. unfold handleReconnect.
  by replace (reconnectAttempts s <? maxReconnectAttempts s) with false by lia.
Qed.

Lemma onopen_resets (s : state) (sid c : nat) :
  sockets s !! sid = Some {| sk_ready := CONNECTING; sk_promise := c |} →
  reconnectAttempts (step s (Ws_open sid)) = 0.
Proof. intros H. simpl. rewrite H. crunch. Qed.

Lemma consecutive_failures_app (n m : nat) :
  consecutive_failures (n + m)
  = consecutive_failures n ++ flat_map failure_round (seq n m).
Proof.
  unfold consecutive_failures.
  by rewrite seq_app, flat_map_app, app_assoc.
Qed.

Lemma idle_round (s : state) (k : nat) :
  timers s = ∅ → (length (sockets s) ≤ k)%nat →
  timers (run s (failure_round k)) = ∅
  ∧ sockets (run s (failure_round k)) = sockets s
  ∧ console (run s (failure_round k)) = console s.
Proof.
  intros Ht Hk. unfold failure_round, run. simpl.
  rewrite (lookup_ge_None_2 (sockets s) k) by lia. simpl.
  rewrite Ht, lookup_empty. simpl.
  rewrite (lookup_ge_None_2 (sockets s) (S k)) by lia. simpl.
  by rewrite Ht.
Qed.

Lemma idle_rounds (m k : nat) (s : state) :
  timers s = ∅ → (length (sockets s) ≤ k)%nat →
  console (run s (flat_map failure_round (seq k m))) = console s.
Proof.
  revert k s. induction m as [|m IH]; intros k s Ht Hk; [done|].
  change (flat_map failure_round (seq k (S m)))
    with (failure_round k ++ flat_map failure_round (seq (S k) m)).
  rewrite run_app.
  destruct (idle_round s k Ht Hk) as (Ht' & Hs' & Hc').
  rewrite IH; [done|done|]. rewrite Hs'. lia.
Qed.

Lemma consecutive_failures_delays (n : nat) :
  reconnect_delays (run (init true) (consecutive_failures n))
  = take n [2000; 4000; 8000; 16000; 30000].
Proof.
  destruct n as [|[|[|[|[|[|n]]]]]];
    [vm_compute; reflexivity .. |].
  change (S (S (S (S (S (S n)))))) with (6 + n)%nat.
  rewrite consecutive_failures_app, run_app.
  unfold reconnect_delays. rewrite idle_rounds.
  - vm_compute. reflexivity.
  - vm_compute. reflexivity.
  - vm_compute. lia.
Qed.

(** C2 as stated fails: over seven failures in a row the delays are not
    the specification's; they differ on the first delay already, and
    again after the fifth. *)
Lemma C2_counterexample :
  reconnect_delays (run (init true) (consecutive_failures 7))
  ≠ spec_delay_sequence 7.
Proof. vm_compute. discriminate. Qed.

(** C2, as the code has it. [handleReconnect] increments the attempt
    counter before it computes the delay, so the [k]-th reconnect attempt
    in a row waits [min(1000 * 2^k, 30000)] ms: 2 s, 4 s, 8 s, 16 s and
    30 s for [k = 1 .. 5]. It schedules one timer per lost connection,
    keeps its handle in [reconnectTimeout], and schedules nothing once
    the counter has reached [maxReconnectAttempts] (5), so the schedule
    has five entries however many failures follow. The counter is reset
    to 0 by the [open] event of a connecting socket. *)
Theorem C2_reconnect_schedule :
  (∀ s, 0 ≤ reconnectAttempts s < maxReconnectAttempts s →
     let attempt := reconnectAttempts s + 1 in
     let delay := Z.min (1000 * 2 ^ attempt) 30000 in
     reconnectAttempts (handleReconnect s) = attempt
     ∧ reconnectTimeout (handleReconnect s) = Some (next_timer s)
     ∧ timers (handleReconnect s)
       = <[next_timer s := {| t_delay := delay; t_due := clock s + delay;
                              t_action := Reconnect |}]> (timers s))
  ∧ (∀ s, maxReconnectAttempts s ≤ reconnectAttempts s →
       timers (handleReconnect s) = timers s
       ∧ reconnectAttempts (handleReconnect s) = reconnectAttempts s)
  ∧ (∀ s sid c,
       sockets s !! sid = Some {| sk_ready := CONNECTING; sk_promise := c |} →
       reconnectAttempts (step s (Ws_open sid)) = 0)
  ∧ map (λ k, Z.min (1000 * 2 ^ k) 30000) [1; 2; 3; 4; 5]
    = [2000; 4000; 8000; 16000; 30000]
  ∧ (∀ n, reconnect_delays (run (init true) (consecutive_failures n))
          = take n [2000; 4000; 8000; 16000; 30000]).
Proof.
  repeat apply conj.
  - intros s [_ H] attempt delay. by rewrite handleReconnect_retry.
  - intros s H. by rewrite handleReconnect_give_up.
  - apply onopen_resets.
  - reflexivity.
  - apply consecutive_failures_delays.
Qed.

Lemma C2_witness :
  let s := run (init true) [Call_connect; Ws_open 0] in
  0 ≤ reconnectAttempts s < maxReconnectAttempts s
  ∧ timers (handleReconnect s)
    = <[1%nat := {| t_delay := 2000; t_due := 2000; t_action := Reconnect |}]> ∅.
Proof.
  split; [by vm_compute|].
  destruct C2_reconnect_schedule as (Hretry & _).
  destruct (Hretry (run (init true) [Call_connect; Ws_open 0])) as (_ & _ & Ht).
  - by vm_compute.
  - exact Ht.
Defined.

(** ** A successful reconnect (claim C3) *)

(** C3 as stated fails: with a subscription and two requests in flight
    when the connection drops, the reconnected service has written
    nothing to the new socket and both requests are still pending. *)
Lemma C3_counterexample :
  let s0 := run (init true) before_disconnect in
  let s1 := run s0 lost_and_reconnected in
  (ws s1 = Some 1%nat ∧ isConnected s1 = true)
  ∧ ¬ replays_subscriptions s0 s1 1
  ∧ ¬ rejects_pending s0 s1.
Proof.
  split; [by vm_compute|]. split.
  - intros H. destruct (H "system_stats" 7%nat) as (r & Hr & _).
    + reflexivity.
    + vm_compute in Hr. by apply elem_of_nil in Hr.
  - intros H. destruct (H 2 1%nat) as (reason & Hr).
    + reflexivity.
    + vm_compute in Hr. discriminate Hr.
Qed.

Lemma reconnect_cycle_frame (s : state) (e : event) :
  match e with
  | Ws_close _ | Ws_open _ | Ws_error _ => True
  | Timer_fire h =>
      ∃ t, timers s !! h = Some t ∧ t_action t = Reconnect
  | _ => False
  end →
  sent (step s e) = sent s
  ∧ subscriptions (step s e) = subscriptions s
  ∧ pendingRequests (step s e) = pendingRequests s
  ∧ promises (step s e) = promises s.
Proof.
  destruct e; try done.
  - intros _. crunch.
  - intros _. crunch.
  - intros _. crunch.
  - intros (t & Ht & Ha). simpl. rewrite Ht.
    destruct (_ <=? _); [|done]. rewrite Ha. crunch.
Qed.

(** C3, as the code has it. Nothing in the reconnect cycle writes to a
    socket or touches a request: the [close] event that starts it, the
    reconnect timer that calls [connect()], and the [open] (or [error])
    event of the new socket all leave the output, the subscription table,
    the pending map and every request promise exactly as they were. A
    successful reconnect therefore replays no subscription (the callbacks
    stay registered locally) and neither rejects nor retries a request
    that was pending when the connection was lost; such a request stays
    pending, with its 10-second timer armed. The [open] event only makes
    the socket OPEN and resets the attempt counter to 0. *)
Theorem C3_reconnect_replays_nothing (s : state) :
  (∀ sid,
     sent (step s (Ws_close sid)) = sent s
     ∧ subscriptions (step s (Ws_close sid)) = subscriptions s
     ∧ pendingRequests (step s (Ws_close sid)) = pendingRequests s
     ∧ promises (step s (Ws_close sid)) = promises s)
  ∧ (∀ h t,
       timers s !! h = Some t → t_action t = Reconnect →
       sent (step s (Timer_fire h)) = sent s
       ∧ subscriptions (step s (Timer_fire h)) = subscriptions s
       ∧ pendingRequests (step s (Timer_fire h)) = pendingRequests s
       ∧ promises (step s (Timer_fire h)) = promises s)
  ∧ (∀ sid,
       sent (step s (Ws_open sid)) = sent s
       ∧ subscriptions (step s (Ws_open sid)) = subscriptions s
       ∧ pendingRequests (step s (Ws_open sid)) = pendingRequests s
       ∧ promises (step s (Ws_open sid)) = promises s
       ∧ timers (step s (Ws_open sid)) = timers s)
  ∧ (∀ sid c,
       sockets s !! sid = Some {| sk_ready := CONNECTING; sk_promise := c |} →
       reconnectAttempts (step s (Ws_open sid)) = 0
       ∧ sockets (step s (Ws_open sid)) !! sid
         = Some {| sk_ready := OPEN; sk_promise := c |})
  ∧ (reachable s →
     ∀ id p, pendingRequests s !! id = Some p →
       promises s !! p = Some Pending
       ∧ ∃ h t, timers s !! h = Some t ∧ t_action t = RequestTimeout id p
                ∧ t_delay t = 10000).
Proof.
  repeat apply conj.
  - intros sid. by apply (reconnect_cycle_frame s (Ws_close sid)).
  - intros h t Ht Ha. apply (reconnect_cycle_frame s (Timer_fire h)). eauto.
  - intros sid.
    destruct (reconnect_cycle_frame s (Ws_open sid) I) as (H1 & H2 & H3 & H4).
    repeat apply conj; try done. crunch.
  - intros sid c H. split; [by eapply onopen_resets|].
    assert (Hlt : (sid < length (sockets s))%nat) by (by eapply lookup_lt_Some).
    simpl. rewrite H.
    replace (sockets (onopen c (set_ready sid OPEN s)))
      with (sockets (set_ready sid OPEN s)) by crunch.
    unfold set_ready. rewrite H. simpl. by rewrite list_lookup_insert_eq.
  - intros W%reachable_wf id p Hp. split.
    + by eapply wf_pending_promise.
    + by eapply wf_pending_timer.
Qed.

Lemma C3_witness :
  let s0 := run (init true) before_disconnect in
  let s := run s0 [Ws_close 0; Elapse 2000] in
  timers s !! 3%nat
  = Some {| t_delay := 2000; t_due := 2000; t_action := Reconnect |}
  ∧ sent (step s (Timer_fire 3)) = sent s
  ∧ promises (step s (Timer_fire 3)) = promises s.
Proof.
  split; [reflexivity|].
  destruct (C3_reconnect_replays_nothing
              (run (run (init true) before_disconnect) [Ws_close 0; Elapse 2000]))
    as (_ & Htimer & _).
  destruct (Htimer 3%nat {| t_delay := 2000; t_due := 2000; t_action := Reconnect |})
    as (Hs & _ & _ & Hp).
  - reflexivity.
  - reflexivity.
  - split; [exact Hs|exact Hp].
Defined.

(** ** Giving up (claim C4) *)

Ltac closed_socket Hs :=
  exfalso;
  match goal with
  | H : sockets _ !! _ = Some _ |- _ => apply Hs in H; simpl in H; congruence
  end.

Lemma exhausted_counters (s : state) (e : event) :
  exhausted s → e ≠ Call_connect →
  reconnectAttempts (step s e) = reconnectAttempts s
  ∧ maxReconnectAttempts (step s e) = maxReconnectAttempts s
  ∧ sockets (step s e) = sockets s.
Proof.
  intros (Hmax & Ht & Hs) He.
  destruct e; try done; crunch.
  all: try (by closed_socket Hs).
  all: try (exfalso; by eapply Ht; eauto).
  all: try lia.
Qed.

Lemma exhausted_timers (s : state) (e : event) :
  exhausted s → e ≠ Call_connect →
  ∀ h t, timers (step s e) !! h = Some t → t_action t ≠ Reconnect.
Proof.
  intros (Hmax & Ht & Hs) He h' t' H'.
  destruct e; try done; crunch.
  all: try (by closed_socket Hs).
  all: try (exfalso; by eapply Ht; eauto).
  all: try (by eapply Ht; eauto).
  all: try lia.
  all: repeat match goal with
       | H : <[_ := _]> _ !! _ = Some _ |- _ =>
           apply lookup_insert_Some in H as [[<- <-]|[_ H]]
       | H : delete _ _ !! _ = Some _ |- _ =>
           apply lookup_delete_Some in H as [_ H]
       end.
  all: try done.
  all: try (by eapply Ht; eauto).
Qed.

Lemma exhausted_step (s : state) (e : event) :
  exhausted s → e ≠ Call_connect →
  exhausted (step s e) ∧ sockets (step s e) = sockets s.
Proof.
  intros X He.
  destruct (exhausted_counters s e X He) as (Ea & Em & Es).
  split; [|done]. split; [|split].
  - rewrite Ea, Em. apply X.
  - by apply exhausted_timers.
  - rewrite Es. apply X.
Qed.

Lemma exhausted_run (tr : list event) (s : state) :
  exhausted s → Forall (λ e, e ≠ Call_connect) tr →
  exhausted (run s tr) ∧ sockets (run s tr) = sockets s.
Proof.
  revert s. induction tr as [|e tr IH]; intros s X Htr; [done|].
  apply Forall_cons in Htr as [He Htr]. simpl.
  destruct (exhausted_step s e X He) as [X' Es].
  destruct (IH (step s e) X' Htr) as [X'' Es'].
  split; [done|]. by rewrite Es'.
Qed.

Lemma exhausted_not_connected (s : state) : exhausted s → isConnected s = false.
Proof.
  intros (_ & _ & Hs). unfold isConnected.
  destruct (ws s) as [sid|]; [|done].
  destruct (sockets s !! sid) as [sk|] eqn:E; [|done].
  apply Hs in E. by rewrite E.
Qed.

(** C4 as stated fails: after five failed reconnects in a row the
    [close] of the last socket finds the counter at its maximum, the
    handler writes two lines to the console, and nothing reaches the
    application. *)
Lemma C4_counterexample :
  let s := run (init true) (consecutive_failures 5) in
  let s' := step s (Ws_close 5) in
  reconnectAttempts s = maxReconnectAttempts s
  ∧ console s' = console s ++ [console_log "Disconnected from MCP server";
                               console_error "Max reconnection attempts reached"]
  ∧ ¬ surfaced_upward s s'.
Proof.
  split; [by vm_compute|]. split; [by vm_compute|].
  intros [H|[H|H]]; apply H; by vm_compute.
Qed.

(** C4, as the code has it. Once the attempt counter has reached
    [maxReconnectAttempts] (5, after five failed reconnects in a row),
    [handleReconnect] does one thing: it writes "Max reconnection
    attempts reached" to [console.error]. It schedules no timer, and the
    [close] event that brought it there settles no promise and runs no
    callback, so the application is not told. The state is terminal:
    unless the application itself calls [connect()] again, no event
    whatever creates a socket, schedules a reconnect or changes the
    counter, and [isConnected()] stays false. The counter goes back to 0
    only through the [open] event of a connecting socket. *)
Theorem C4_reconnect_gives_up :
  (∀ s, maxReconnectAttempts s ≤ reconnectAttempts s →
     handleReconnect s
     = log (console_error "Max reconnection attempts reached") s)
  ∧ (∀ s sid, maxReconnectAttempts s ≤ reconnectAttempts s →
       ¬ surfaced_upward s (step s (Ws_close sid))
       ∧ timers (step s (Ws_close sid)) = timers s)
  ∧ exhausted (step (run (init true) (consecutive_failures 5)) (Ws_close 5))
  ∧ (∀ s tr, exhausted s → Forall (λ e, e ≠ Call_connect) tr →
       exhausted (run s tr)
       ∧ sockets (run s tr) = sockets s
       ∧ isConnected (run s tr) = false)
  ∧ (∀ s sid c,
       sockets s !! sid = Some {| sk_ready := CONNECTING; sk_promise := c |} →
       reconnectAttempts (step s (Ws_open sid)) = 0).
Proof.
  split; [apply handleReconnect_give_up|].
  split; [|split; [|split]].
  - intros s sid Hmax.
    assert (E : promises (step s (Ws_close sid)) = promises s
                ∧ connects (step s (Ws_close sid)) = connects s
                ∧ invoked (step s (Ws_close sid)) = invoked s
                ∧ timers (step s (Ws_close sid)) = timers s).
    { simpl. destruct (sockets s !! sid) as [[[] c]|] eqn:E; try done;
        unfold onclose; rewrite handleReconnect_give_up by (by crunch);
        unfold set_ready; rewrite E; done. }
    destruct E as (E1 & E2 & E3 & E4).
    split; [|done]. by intros [H|[H|H]].
  - split; [|split].
    + by vm_compute.
    + assert (E : timers (step (run (init true) (consecutive_failures 5))
                            (Ws_close 5)) = ∅) by (by vm_compute).
      intros h t. by rewrite E, lookup_empty.
    + assert (E : sockets (step (run (init true) (consecutive_failures 5))
                             (Ws_close 5))
                  = map (λ c, {| sk_ready := CLOSED; sk_promise := c |})
                        (seq 0 6))
        by (by vm_compute).
      intros sid sk Hs. rewrite E in Hs. simpl in Hs.
      do 6 (destruct sid as [|sid]; [by injection Hs as <-|]).
      done.
  - intros s tr X Htr. destruct (exhausted_run tr s X Htr) as [X' Es].
    split; [done|]. split; [done|]. by apply exhausted_not_connected.
  - apply onopen_resets.
Qed.

Lemma C4_witness :
  let s := step (run (init true) (consecutive_failures 5)) (Ws_close 5) in
  let later := [Ws_close 5; Elapse 60000; Timer_fire 5; Call_ping; Ws_open 5] in
  exhausted s
  ∧ sockets (run s later) = sockets s
  ∧ isConnected (run s later) = false.
Proof.
  destruct C4_reconnect_gives_up as (_ & _ & Hx & Hterminal & _).
  split; [exact Hx|].
  destruct (Hterminal
              (step (run (init true) (consecutive_failures 5)) (Ws_close 5))
              [Ws_close 5; Elapse 60000; Timer_fire 5; Call_ping; Ws_open 5])
    as (_ & Hs & Hc).
  - exact Hx.
  - repeat constructor; discriminate.
  - split; [exact Hs|exact Hc].
Defined.

(** * Further properties of the service and of its callers *)

(** ** The output of the service *)

Lemma params_or_empty_object (params : option json) :
  (params = None ∨ ∃ ms, params = Some (JObj ms)) →
  ∃ ms, params_or_empty params = JObj ms.
Proof. intros [->|[ms ->]]; simpl; eauto. Qed.

Lemma sendRequest_sent (method : string) (params : option json) (s : state) :
  (sent (sendRequest method params s).2 = sent s
   ∧ requestId (sendRequest method params s).2 = requestId s)
  ∨ (∃ sid sk,
       sockets s !! sid = Some sk
       ∧ sent (sendRequest method params s).2
         = sent s ++ [(sid, {| req_id := requestId s + 1; req_method := method;
                               req_params := params_or_empty params |})]
       ∧ requestId (sendRequest method params s).2 = requestId s + 1).
Proof.
  destruct (open_socket s) as [sid|] eqn:Ho.
  - right. rewrite (sendRequest_open _ _ _ sid Ho). simpl.
    unfold open_socket in Ho. destruct (ws s) as [sid'|]; [|done].
    destruct (sockets s !! sid') as [sk|] eqn:Hs; [|done].
    destruct sk as [[] c]; try done. injection Ho as <-. eauto.
  - left. by rewrite (sendRequest_closed _ _ _ Ho).
Qed.

Lemma sockets_length_step (s : state) (e : event) :
  (length (sockets s) ≤ length (sockets (step s e)))%nat.
Proof.
  destruct e; crunch; rewrite ?length_insert, ?length_app; simpl; lia.
Qed.

(** What one step adds to the output. *)
Lemma step_sent (s : state) (e : event) :
  (sent (step s e) = sent s ∧ requestId (step s e) = requestId s)
  ∨ (∃ sid sk r,
       sockets s !! sid = Some sk
       ∧ sent (step s e) = sent s ++ [(sid, r)]
       ∧ req_id r = requestId s + 1
       ∧ req_method r ∈ exposed_methods
       ∧ (∃ ms, req_params r = JObj ms)
       ∧ requestId (step s e) = requestId s + 1).
Proof.
  assert (Hsend : ∀ method params (s' : state),
    sockets s' = sockets s → sent s' = sent s → requestId s' = requestId s →
    method ∈ exposed_methods →
    (params = None ∨ ∃ ms, params = Some (JObj ms)) →
    (sent (sendRequest method params s').2 = sent s
     ∧ requestId (sendRequest method params s').2 = requestId s)
    ∨ (∃ sid sk r,
         sockets s !! sid = Some sk
         ∧ sent (sendRequest method params s').2 = sent s ++ [(sid, r)]
         ∧ req_id r = requestId s + 1
         ∧ req_method r ∈ exposed_methods
         ∧ (∃ ms, req_params r = JObj ms)
         ∧ requestId (sendRequest method params s').2 = requestId s + 1)).
  { intros method params s' Ek Es Er Hm Hp.
    destruct (sendRequest_sent method params s') as [[E1 E2]|(sid & sk & Hs & E1 & E2)].
    - left. by rewrite E1, E2.
    - right. exists sid, sk. eexists. rewrite E1, E2, Es, Er, <- Ek.
      repeat split; try done. by apply params_or_empty_object. }
  destruct e; simpl;
    try (apply Hsend; try done;
           [apply list_elem_of_In; simpl; tauto | eauto]);
    try (left; crunch).
Qed.

Lemma sent_numbered_step (s : state) (e : event) :
  sent_numbered s → sent_numbered (step s e).
Proof.
  intros [Hn Hi].
  pose proof (sockets_length_step s e) as Hlen.
  destruct (step_sent s e)
    as [[E1 E2]|(sid & sk & r & Hs & E1 & Hid & Hm & Hp & E2)].
  - split; rewrite E1, ?E2; [done|].
    intros i a Ha. destruct (Hi i a Ha) as (? & ? & ? & ?).
    repeat split; try done. lia.
  - split; rewrite E1, ?E2.
    + rewrite length_app. simpl. lia.
    + intros i a [Ha|[Hl Ha]]%lookup_app_Some.
      * destruct (Hi i a Ha) as (? & ? & ? & ?).
        repeat split; try done. lia.
      * apply list_lookup_singleton_Some in Ha as [Hz <-]. simpl.
        apply lookup_lt_Some in Hs.
        repeat split; try done; lia.
Qed.

Lemma sent_numbered_reachable (s : state) : reachable s → sent_numbered s.
Proof.
  intros (url_ok & tr & ->).
  assert (H : ∀ tr s0, sent_numbered s0 → sent_numbered (run s0 tr)).
  { clear tr. intros tr. induction tr as [|e tr IH]; intros s0 H0; [done|].
    simpl. by apply IH, sent_numbered_step. }
  apply H. split; [done|]. intros i a Ha. simpl in Ha. by rewrite lookup_nil in Ha.
Qed.

(** X1. Request ids are handed out without gaps. At any time the counter
    [requestId] equals the number of requests written so far, the
    request at position [i] of the output (from 0) carries the id
    [i + 1], and every entry of the pending map belongs to the request
    that was written with its id. *)
Theorem X1_request_ids_consecutive (s : state) :
  reachable s →
  requestId s = Z.of_nat (length (sent s))
  ∧ (∀ i a, sent s !! i = Some a → req_id a.2 = Z.of_nat i + 1)
  ∧ (∀ id p, pendingRequests s !! id = Some p →
       ∃ a, sent s !! Z.to_nat (id - 1) = Some a ∧ req_id a.2 = id).
Proof.
  intros R. destruct (sent_numbered_reachable s R) as [Hn Hi].
  split; [done|]. split; [intros i a Ha; by apply Hi|].
  intros id p Hp.
  apply (wf_pending_id s (reachable_wf s R)) in Hp.
  destruct (lookup_lt_is_Some_2 (sent s) (Z.to_nat (id - 1))) as [a Ha]; [lia|].
  exists a. split; [done|]. destruct (Hi _ a Ha) as [-> _]. lia.
Qed.

Lemma X1_witness :
  let s := run (init true)
             [Call_connect; Ws_open 0; Call_ping; Call_getSystemStats;
              Ws_message 0 (Some (JObj [("id", JNum 1); ("result", JNull)]))] in
  requestId s = 2
  ∧ pendingRequests s !! 2 = Some 1%nat
  ∧ ∃ a, sent s !! 1%nat = Some a ∧ req_id a.2 = 2.
Proof.
  destruct (X1_request_ids_consecutive
              (run (init true)
                 [Call_connect; Ws_open 0; Call_ping; Call_getSystemStats;
                  Ws_message 0 (Some (JObj [("id", JNum 1); ("result", JNull)]))]))
    as (Hn & _ & Hp).
  - eexists true, _. reflexivity.
  - split; [exact Hn|]. split; [reflexivity|].
    apply (Hp 2 1%nat). reflexivity.
Defined.





(** ** Frames (more on [handleMessage]) *)

Lemma handleMessage_object (ms : list (string * json)) (s : state) :
  handleMessage (Some (JObj ms)) s
  = handle_notification (JObj ms) (handle_response (JObj ms) s).
Proof. reflexivity. Qed.

(** X3. Responses are matched by id, never by arrival order. With two
    requests pending, the response to one settles that request only: the
    other keeps its entry and its promise stays pending. Two responses
    can therefore arrive in either order; the promises and the pending
    map end up the same. *)
Theorem X3_responses_correlate_by_id
    (s : state) (id1 id2 : Z) (p1 p2 : nat) (ms1 ms2 : list (string * json)) :
  reachable s →
  pendingRequests s !! id1 = Some p1 → pendingRequests s !! id2 = Some p2 →
  id1 ≠ id2 →
  member "id" ms1 = Some (JNum id1) → member "id" ms2 = Some (JNum id2) →
  let s1 := handleMessage (Some (JObj ms1)) s in
  let s12 := handleMessage (Some (JObj ms2)) s1 in
  let s21 := handleMessage (Some (JObj ms1)) (handleMessage (Some (JObj ms2)) s) in
  p1 ≠ p2
  ∧ pendingRequests s1 !! id2 = Some p2
  ∧ promises s1 !! p2 = Some Pending
  ∧ promises s12 = promises s21
  ∧ pendingRequests s12 = pendingRequests s21.
Proof.
  intros R H1 H2 Hne Hm1 Hm2 s1 s12 s21.
  pose proof (reachable_wf s R) as W.
  assert (Hp : p1 ≠ p2).
  { intros ->. apply Hne. by eapply wf_pending_inj. }
  assert (Hh : ∀ ms s0, promises (handleMessage (Some (JObj ms)) s0)
                        = promises (handle_response (JObj ms) s0)
                        ∧ pendingRequests (handleMessage (Some (JObj ms)) s0)
                          = pendingRequests (handle_response (JObj ms) s0)).
  { intros. rewrite handleMessage_object. apply handle_notification_frame. }
  assert (Hfr : ∀ ms (sa sb : state),
    promises sa = promises sb → pendingRequests sa = pendingRequests sb →
    promises (handle_response (JObj ms) sa) = promises (handle_response (JObj ms) sb)
    ∧ pendingRequests (handle_response (JObj ms) sa)
      = pendingRequests (handle_response (JObj ms) sb)).
  { intros ms sa sb E1 E2. unfold handle_response, reject, resolve, settle.
    simpl. rewrite E2.
    destruct (truthy _); [|done].
    destruct (number_key _) as [k|]; [|done].
    destruct (pendingRequests sb !! k); [|done].
    destruct (truthy _); simpl; rewrite E1;
      destruct (promises sb !! n) as [[| |]|]; done. }
  assert (W1 : wf (handle_response (JObj ms1) s)) by (by apply wf_handle_response).
  assert (W2 : wf (handle_response (JObj ms2) s)) by (by apply wf_handle_response).
  assert (E1 := handle_response_matching ms1 id1 p1 s W Hm1 H1).
  assert (E2 := handle_response_matching ms2 id2 p2 s W Hm2 H2).
  assert (H21 : pendingRequests (handle_response (JObj ms1) s) !! id2 = Some p2).
  { rewrite E1. simpl. by rewrite lookup_delete_ne. }
  assert (H12 : pendingRequests (handle_response (JObj ms2) s) !! id1 = Some p1).
  { rewrite E2. simpl. by rewrite lookup_delete_ne. }
  assert (E12 := handle_response_matching ms2 id2 p2 _ W1 Hm2 H21).
  assert (E21 := handle_response_matching ms1 id1 p1 _ W2 Hm1 H12).
  subst s1 s12 s21.
  destruct (Hh ms1 s) as [Ea Eb].
  split; [done|]. split; [by rewrite Eb|]. split.
  { rewrite Ea, E1. simpl. rewrite list_lookup_insert_ne by done.
    by eapply wf_pending_promise. }
  destruct (Hh ms2 (handleMessage (Some (JObj ms1)) s)) as [-> ->].
  destruct (Hh ms1 (handleMessage (Some (JObj ms2)) s)) as [-> ->].
  destruct (Hh ms2 s) as [Ec Ed].
  destruct (Hfr ms2 _ _ Ea Eb) as [-> ->].
  destruct (Hfr ms1 _ _ Ec Ed) as [-> ->].
  rewrite E12, E21, E1, E2. simpl. split.
  - by apply list_insert_insert_ne.
  - apply delete_delete.
Qed.

Lemma X3_witness :
  let s := run (init true)
             [Call_connect; Ws_open 0; Call_ping; Call_getServerInfo] in
  let late := [("id", JNum 1); ("result", JStr "pong")] in
  let early := [("id", JNum 2); ("result", JStr "info")] in
  promises (handleMessage (Some (JObj late)) (handleMessage (Some (JObj early)) s))
  = [Fulfilled (Some (JStr "pong")); Fulfilled (Some (JStr "info"))]
  ∧ promises (handleMessage (Some (JObj early)) (handleMessage (Some (JObj late)) s))
    = promises (handleMessage (Some (JObj late))
                  (handleMessage (Some (JObj early)) s)).
Proof.
  split; [reflexivity|].
  apply (X3_responses_correlate_by_id
           (run (init true)
              [Call_connect; Ws_open 0; Call_ping; Call_getServerInfo])
           1 2 0 1
           [("id", JNum 1); ("result", JStr "pong")]
           [("id", JNum 2); ("result", JStr "info")]).
  - eexists true, _. reflexivity.
  - reflexivity.
  - reflexivity.
  - lia.
  - reflexivity.
  - reflexivity.
Defined.

(** X4. The two halves of [handleMessage] are not alternatives. A frame
    that carries both the id of a pending request and the name of a
    subscribed event settles the request and runs the callback with the
    frame's params. *)
Theorem X4_frame_with_id_and_method
    (s : state) (ms : list (string * json)) (id : Z) (p : nat)
    (name : string) (cb : nat) :
  reachable s →
  member "id" ms = Some (JNum id) → pendingRequests s !! id = Some p →
  member "method" ms = Some (JStr name) → subscriptions s !! name = Some cb →
  let s' := handleMessage (Some (JObj ms)) s in
  pendingRequests s' = delete id (pendingRequests s)
  ∧ promises s' !! p
    = Some (if truthy (member "error" ms)
            then Rejected (NewError (member "error" ms ≫= λ e, prop e "message"))
            else Fulfilled (member "result" ms))
  ∧ invoked s' = invoked s ++ [(cb, member "params" ms)].
Proof.
  intros R Hid Hp Hm Hs s'. subst s'.
  pose proof (reachable_wf s R) as W.
  rewrite (handleMessage_invoked ms s name Hm), Hs.
  rewrite event_name_nonempty by (by eapply wf_subscriptions).
  rewrite handleMessage_object.
  destruct (handle_notification_frame (JObj ms) (handle_response (JObj ms) s))
    as [-> ->].
  rewrite (handle_response_matching ms id p s W Hid Hp). simpl.
  repeat split. apply list_lookup_insert_eq.
  by eapply lookup_lt_Some, wf_pending_promise.
Qed.

Lemma X4_witness :
  let s := run (init true)
             [Call_connect; Ws_open 0; Call_subscribeToAlerts 4] in
  let frame := [("id", JNum 1); ("result", JBool true);
                ("method", JStr "alerts"); ("params", JNum 3)] in
  promises (handleMessage (Some (JObj frame)) s) !! 0%nat
  = Some (Fulfilled (Some (JBool true)))
  ∧ invoked (handleMessage (Some (JObj frame)) s) = [(4%nat, Some (JNum 3))].
Proof.
  destruct (X4_frame_with_id_and_method
              (run (init true) [Call_connect; Ws_open 0; Call_subscribeToAlerts 4])
              [("id", JNum 1); ("result", JBool true);
               ("method", JStr "alerts"); ("params", JNum 3)]
              1 0 "alerts" 4) as (_ & Hp & Hi).
  - eexists true, _. reflexivity.
  - reflexivity.
  - reflexivity.
  - reflexivity.
  - reflexivity.
  - split; [exact Hp|exact Hi].
Defined.

(** X5. What it takes to settle a request or to run a callback. If
    [handleMessage] changes any promise or the pending map, the message
    was a JSON object whose id is a number equal to a key of the pending
    map; if it runs a callback, the message was a JSON object whose
    method is a string naming a subscribed event. Input that does not
    parse, [null], arrays, bare numbers and strings, a frame without id,
    and a frame whose id is a string (even one that spells a pending id)
    do neither. *)
Theorem X5_only_matching_frames_have_effect (data : option json) (s : state) :
  ((promises (handleMessage data s) ≠ promises s
    ∨ pendingRequests (handleMessage data s) ≠ pendingRequests s) →
   ∃ ms id p, data = Some (JObj ms) ∧ member "id" ms = Some (JNum id)
              ∧ pendingRequests s !! id = Some p)
  ∧ (invoked (handleMessage data s) ≠ invoked s →
     ∃ ms name cb, data = Some (JObj ms)
                   ∧ member "method" ms = Some (JStr name)
                   ∧ subscriptions s !! name = Some cb).
Proof.
  split.
  - intros Hch. destruct data as [[| | | | | |ms]|];
      try (exfalso; destruct Hch as [H|H]; apply H; reflexivity).
    rewrite handleMessage_object in Hch.
    destruct (handle_notification_frame (JObj ms) (handle_response (JObj ms) s))
      as [E1 E2].
    rewrite E1, E2 in Hch. unfold handle_response in Hch. simpl in Hch.
    destruct (member "id" ms) as [[| |k| | | |]|] eqn:Hid; simpl in Hch;
      try (exfalso; destruct Hch as [H|H]; apply H;
           repeat case_match; reflexivity).
    destruct (pendingRequests s !! k) as [p|] eqn:Hk.
    + by exists ms, k, p.
    + exfalso. destruct Hch as [H|H]; apply H; by destruct (negb _).
  - intros Hch. destruct data as [[| | | | | |ms]|];
      try (exfalso; apply Hch; reflexivity).
    destruct (member "method" ms) as [[| | | |name| |]|] eqn:Hm;
      try (exfalso; apply Hch; rewrite handleMessage_object;
           destruct (handle_response_subscriptions (JObj ms) s) as [_ <-];
           unfold handle_notification; simpl; rewrite Hm; simpl;
           repeat case_match; reflexivity).
    rewrite (handleMessage_invoked ms s name Hm) in Hch.
    destruct (subscriptions s !! name) as [cb|] eqn:Hs.
    + by exists ms, name, cb.
    + exfalso. apply Hch. apply app_nil_r.
Qed.

Lemma X5_witness :
  let s := run (init true) [Call_connect; Ws_open 0; Call_ping] in
  let reply := Some (JObj [("id", JNum 1); ("result", JStr "pong")]) in
  promises (handleMessage reply s) ≠ promises s
  ∧ ∃ ms id p, reply = Some (JObj ms) ∧ member "id" ms = Some (JNum id)
               ∧ pendingRequests s !! id = Some p.
Proof.
  assert (H : promises (handleMessage
                          (Some (JObj [("id", JNum 1); ("result", JStr "pong")]))
                          (run (init true) [Call_connect; Ws_open 0; Call_ping]))
              ≠ promises (run (init true) [Call_connect; Ws_open 0; Call_ping]))
    by (vm_compute; discriminate).
  split; [exact H|].
  apply (X5_only_matching_frames_have_effect
           (Some (JObj [("id", JNum 1); ("result", JStr "pong")]))
           (run (init true) [Call_connect; Ws_open 0; Call_ping])).
  left. exact H.
Defined.

(** X6. An inbound message never makes the client talk or reconnect:
    whatever arrives, [handleMessage] writes nothing to any socket, arms
    and clears no timer, consumes no request id, and leaves the sockets,
    the current socket, the reconnect counter and the subscription table
    as they were. *)
Theorem X6_handleMessage_is_passive (data : option json) (s : state) :
  sent (handleMessage data s) = sent s
  ∧ timers (handleMessage data s) = timers s
  ∧ requestId (handleMessage data s) = requestId s
  ∧ sockets (handleMessage data s) = sockets s
  ∧ ws (handleMessage data s) = ws s
  ∧ reconnectAttempts (handleMessage data s) = reconnectAttempts s
  ∧ reconnectTimeout (handleMessage data s) = reconnectTimeout s
  ∧ subscriptions (handleMessage data s) = subscriptions s.
Proof. crunch. Qed.

(** X7. Once a request has been settled its timer is harmless. In every
    reachable state, if the promise a request timer was armed for is
    resolved or rejected, then the pending map has no entry under the
    timer's id, and firing the timer settles nothing: when due it just
    leaves the queue, and the promises, the pending map, the output and
    the console stay as they were. *)
Theorem X7_timeout_after_response
    (s : state) (h : nat) (t : timer) (id : Z) (p : nat) (o : promise) :
  reachable s →
  timers s !! h = Some t → t_action t = RequestTimeout id p →
  promises s !! p = Some o → o ≠ Pending →
  pendingRequests s !! id = None
  ∧ step s (Timer_fire h)
    = (if t_due t <=? clock s then clearTimeout h s else s)
  ∧ promises (step s (Timer_fire h)) = promises s
  ∧ pendingRequests (step s (Timer_fire h)) = pendingRequests s
  ∧ sent (step s (Timer_fire h)) = sent s
  ∧ console (step s (Timer_fire h)) = console s.
Proof.
  intros R Ht Ha Hp Ho. pose proof (reachable_wf s R) as W.
  assert (Hn : pendingRequests s !! id = None).
  { destruct (pendingRequests s !! id) as [p'|] eqn:Hid; [|done].
    destruct (wf_timer_request s W h t id p Ht Ha) as (_ & _ & Hq).
    rewrite (Hq p' Hid) in Hid.
    apply (wf_pending_promise s W) in Hid. congruence. }
  split; [done|].
  assert (E : step s (Timer_fire h)
              = (if t_due t <=? clock s then clearTimeout h s else s)).
  { simpl. rewrite Ht, Ha. destruct (t_due t <=? clock s); [|done].
    simpl. unfold request_timeout. simpl. by rewrite Hn. }
  split; [done|]. rewrite E. by destruct (t_due t <=? clock s).
Qed.

Lemma X7_witness :
  let s := run (init true)
             [Call_connect; Ws_open 0; Call_ping;
              Ws_message 0 (Some (JObj [("id", JNum 1); ("result", JNull)]));
              Elapse 10000] in
  timers s !! 1%nat
  = Some {| t_delay := 10000; t_due := 10000; t_action := RequestTimeout 1 0 |}
  ∧ pendingRequests s !! 1 = None
  ∧ promises (step s (Timer_fire 1)) = promises s.
Proof.
  split; [reflexivity|].
  destruct (X7_timeout_after_response
           (run (init true)
              [Call_connect; Ws_open 0; Call_ping;
               Ws_message 0 (Some (JObj [("id", JNum 1); ("result", JNull)]));
               Elapse 10000])
           1 {| t_delay := 10000; t_due := 10000; t_action := RequestTimeout 1 0 |}
           1 0 (Fulfilled (Some JNull))) as (Hn & _ & Hp & _).
  - eexists true, _. reflexivity.
  - reflexivity.
  - reflexivity.
  - reflexivity.
  - discriminate.
  - split; [exact Hn|exact Hp].
Defined.

(** ** Bounds of the reconnect controller and the timers *)

Lemma reconnect_delay_bounds (a : Z) :
  0 ≤ a < 5 → 2000 ≤ Z.min (1000 * 2 ^ (a + 1)) 30000 ≤ 30000.
Proof.
  intros H.
  assert (a = 0 ∨ a = 1 ∨ a = 2 ∨ a = 3 ∨ a = 4) as [->|[->|[->|[->| ->]]]]
    by lia; by vm_compute.
Qed.

Lemma timers_bounded_insert (s : state) (h : nat) (t : timer) (s' : state) :
  timers_bounded s →
  maxReconnectAttempts s' = maxReconnectAttempts s →
  0 ≤ reconnectAttempts s' ≤ 5 →
  clock s' = clock s →
  timers s' = <[h := t]> (timers s) →
  t_due t = clock s + t_delay t →
  match t_action t with
  | Reconnect => 2000 ≤ t_delay t ≤ 30000
  | RequestTimeout _ _ => t_delay t = 10000
  end →
  timers_bounded s'.
Proof.
  intros (Hm & Ha & Hc & Ht) Em Ea Ec Et Hd Hk.
  split; [congruence|]. split; [done|]. split; [by rewrite Ec|].
  intros h' t'. rewrite Et, Ec.
  intros [[<- <-]|[_ H]]%lookup_insert_Some; [split; [lia|done]|by apply (Ht h')].
Qed.

Lemma timers_bounded_subset (s s' : state) :
  timers_bounded s →
  maxReconnectAttempts s' = maxReconnectAttempts s →
  0 ≤ reconnectAttempts s' ≤ 5 →
  clock s ≤ clock s' →
  (∀ h t, timers s' !! h = Some t → timers s !! h = Some t) →
  timers_bounded s'.
Proof.
  intros (Hm & Ha & Hc & Ht) Em Ea Ec Hsub.
  split; [congruence|]. split; [done|]. split; [lia|].
  intros h t H%Hsub. destruct (Ht h t H) as [Hd Hk]. split; [lia|done].
Qed.

Lemma timers_bounded_sendRequest (method : string) (params : option json)
    (s : state) :
  timers_bounded s → timers_bounded (sendRequest method params s).2.
Proof.
  intros B. destruct (open_socket s) as [sid|] eqn:Ho.
  - rewrite (sendRequest_open _ _ _ sid Ho).
    eapply (timers_bounded_insert s);
      [done|reflexivity|apply B|reflexivity|reflexivity|reflexivity|reflexivity].
  - rewrite (sendRequest_closed _ _ _ Ho).
    apply (timers_bounded_subset s);
      [done|reflexivity|apply B|simpl; lia|done].
Qed.

Lemma timers_bounded_handleReconnect (s s0 : state) :
  timers_bounded s0 →
  maxReconnectAttempts s = maxReconnectAttempts s0 →
  reconnectAttempts s = reconnectAttempts s0 →
  clock s = clock s0 → timers s = timers s0 →
  timers_bounded (handleReconnect s).
Proof.
  intros B Em Ea Ec Et. pose proof B as (Hm & Ha & Hc & Ht).
  destruct (decide (reconnectAttempts s < maxReconnectAttempts s)) as [Hlt|Hge].
  - rewrite handleReconnect_retry by done.
    eapply (timers_bounded_insert s0);
      [done|exact Em|simpl; lia|exact Ec|simpl; by rewrite Et
      |simpl; by rewrite Ec|simpl; apply reconnect_delay_bounds; lia].
  - rewrite handleReconnect_give_up by lia.
    apply (timers_bounded_subset s0); try done; simpl;
      [lia|lia|by rewrite Et].
Qed.

Lemma timers_bounded_step (s : state) (e : event) :
  timers_bounded s → timers_bounded (step s e).
Proof.
  intros B. pose proof B as (Hm & Ha & Hc & Ht).
  destruct e; simpl;
    try (by apply timers_bounded_sendRequest);
    try (by apply timers_bounded_sendRequest, (timers_bounded_subset s)).
  - apply (timers_bounded_subset s); try done; crunch; lia.
  - apply (timers_bounded_subset s); try done; [crunch..|].
    intros h t. destruct (disconnect_fields s) as (_ & _ & _ & _ & _ & ->).
    destruct (reconnectTimeout s); [|done].
    by intros [_ H]%lookup_delete_Some.
  - destruct (sockets s !! sid) as [[[] c]|]; try done.
    apply (timers_bounded_subset s); try done; crunch; lia.
  - destruct (sockets s !! sid) as [[[] c]|]; try done.
    apply (timers_bounded_subset s); try done; crunch; lia.
  - destruct (sockets s !! sid) as [[[] c]|]; try done;
      (apply (timers_bounded_subset s); try done; crunch; lia).
  - destruct (sockets s !! sid) as [[[] c]|] eqn:Hs; try done;
      unfold onclose; apply (timers_bounded_handleReconnect _ s);
      try done; unfold set_ready; rewrite Hs; done.
  - destruct (timers s !! h) as [t|] eqn:Hh; [|done].
    destruct (_ <=? _); [|done].
    apply (timers_bounded_subset s); try done.
    + destruct (t_action t); crunch.
    + destruct (t_action t); crunch; lia.
    + destruct (t_action t); crunch; lia.
    + intros h' t'.
      replace (timers (run_timer (t_action t) (clearTimeout h s)))
        with (delete h (timers s)) by (destruct (t_action t); crunch).
      by intros [_ H]%lookup_delete_Some.
  - apply (timers_bounded_subset s); try done; simpl; lia.
Qed.

Lemma timers_bounded_reachable (s : state) : reachable s → timers_bounded s.
Proof.
  intros (url_ok & tr & ->).
  assert (H : ∀ tr s0, timers_bounded s0 → timers_bounded (run s0 tr)).
  { clear tr. intros tr. induction tr as [|e tr IH]; intros s0 H0; [done|].
    simpl. by apply IH, timers_bounded_step. }
  apply H. repeat split; simpl; try done; try lia.
Qed.

(** X8. The reconnect counter stays between 0 and the maximum, which is
    always 5. Every timer in the queue is due no later than its delay
    from now; a request timer has a delay of exactly 10 s and a
    reconnect timer a delay between 2 s and 30 s. *)
Theorem X8_timers_and_attempts_bounded (s : state) :
  reachable s →
  maxReconnectAttempts s = 5
  ∧ 0 ≤ reconnectAttempts s ≤ 5
  ∧ ∀ h t, timers s !! h = Some t →
      t_due t ≤ clock s + t_delay t
      ∧ match t_action t with
        | Reconnect => 2000 ≤ t_delay t ≤ 30000
        | RequestTimeout _ _ => t_delay t = 10000
        end.
Proof.
  intros R. destruct (timers_bounded_reachable s R) as (Hm & Ha & _ & Ht).
  split; [done|]. split; [done|]. exact Ht.
Qed.

Lemma X8_witness :
  let s := run (init true) (consecutive_failures 3 ++ [Ws_close 3]) in
  reconnectAttempts s = 4
  ∧ timers s !! 4%nat
    = Some {| t_delay := 16000; t_due := 106000; t_action := Reconnect |}
  ∧ 2000 ≤ 16000 ≤ 30000.
Proof.
  split; [reflexivity|]. split; [reflexivity|].
  destruct (X8_timers_and_attempts_bounded
              (run (init true) (consecutive_failures 3 ++ [Ws_close 3])))
    as (_ & _ & Ht).
  - eexists true, _. reflexivity.
  - apply (Ht 4%nat {| t_delay := 16000; t_due := 106000; t_action := Reconnect |}).
    reflexivity.
Defined.

(** ** Connecting and disconnecting *)

Lemma close_runs_handleReconnect (s : state) (sid : nat) (sk : socket) :
  sockets s !! sid = Some sk → sk_ready sk ≠ CLOSED →
  step s (Ws_close sid)
  = handleReconnect
      (log (console_log "Disconnected from MCP server")
         (set_sockets
            (<[sid := {| sk_ready := CLOSED; sk_promise := sk_promise sk |}]>
               (sockets s)) s)).
Proof.
  intros Hs Hr. simpl. rewrite Hs. unfold onclose, set_ready. rewrite Hs.
  by destruct sk as [[] c].
Qed.

Lemma reconnect_timer_fires (s : state) (h : nat) (t : timer) (dt : N) :
  timers s !! h = Some t → t_action t = Reconnect →
  t_due t ≤ clock s + Z.of_N dt → url_valid s = true →
  let s' := run s [Elapse dt; Timer_fire h] in
  ws s' = Some (length (sockets s))
  ∧ sockets s'
    = sockets s ++ [{| sk_ready := CONNECTING; sk_promise := length (connects s) |}]
  ∧ connects s' = connects s ++ [{| c_state := Pending; c_caught := true |}]
  ∧ timers s' = delete h (timers s).
Proof.
  intros Ht Ha Hd Hu. unfold run. simpl. rewrite Ht, Ha.
  replace (t_due t <=? clock s + Z.of_N dt) with true by lia.
  simpl. unfold reconnect_timer, connect. simpl. by rewrite Hu.
Qed.

Lemma disconnect_open_socket (s : state) (sid c : nat) :
  ws s = Some sid →
  sockets s !! sid = Some {| sk_ready := OPEN; sk_promise := c |} →
  sockets (disconnect s)
  = <[sid := {| sk_ready := CLOSING; sk_promise := c |}]> (sockets s).
Proof.
  intros Hw Hs. rewrite disconnect_sockets, Hw.
  unfold ws_close, set_ready. by rewrite Hs.
Qed.

Lemma disconnect_keeps (s : state) :
  reconnectAttempts (disconnect s) = reconnectAttempts s
  ∧ maxReconnectAttempts (disconnect s) = maxReconnectAttempts s
  ∧ next_timer (disconnect s) = next_timer s
  ∧ clock (disconnect s) = clock s
  ∧ url_valid (disconnect s) = url_valid s
  ∧ connects (disconnect s) = connects s
  ∧ sent (disconnect s) = sent s
  ∧ length (sockets (disconnect s)) = length (sockets s).
Proof. crunch; by rewrite length_insert. Qed.

Lemma open_current_socket (s : state) (sid c : nat) :
  ws s = Some sid →
  sockets s !! sid = Some {| sk_ready := CONNECTING; sk_promise := c |} →
  isConnected (step s (Ws_open sid)) = true.
Proof.
  intros Hw Hs. simpl. rewrite Hs. unfold onopen, isConnected.
  replace (ws (resolve_connect c
                 (set_reconnectAttempts 0
                    (log (console_log "Connected to MCP server")
                       (set_ready sid OPEN s))))) with (ws s) by crunch.
  replace (sockets (resolve_connect c
                      (set_reconnectAttempts 0
                         (log (console_log "Connected to MCP server")
                            (set_ready sid OPEN s)))))
    with (sockets (set_ready sid OPEN s)) by crunch.
  rewrite Hw. unfold set_ready. rewrite Hs. simpl.
  rewrite list_lookup_insert_eq; [done|]. by eapply lookup_lt_Some.
Qed.

Lemma close_schedules_reconnect (s : state) (sid : nat) (sk : socket) :
  sockets s !! sid = Some sk → sk_ready sk ≠ CLOSED →
  reconnectAttempts s < maxReconnectAttempts s →
  let delay := Z.min (1000 * 2 ^ (reconnectAttempts s + 1)) 30000 in
  let s1 := step s (Ws_close sid) in
  reconnectTimeout s1 = Some (next_timer s)
  ∧ timers s1
    = <[next_timer s := {| t_delay := delay; t_due := clock s + delay;
                           t_action := Reconnect |}]> (timers s)
  ∧ clock s1 = clock s
  ∧ url_valid s1 = url_valid s
  ∧ connects s1 = connects s
  ∧ length (sockets s1) = length (sockets s).
Proof.
  intros Hs Hr Ha delay s1. subst s1 delay.
  rewrite (close_runs_handleReconnect s sid sk Hs Hr).
  rewrite handleReconnect_retry by exact Ha.
  simpl. rewrite length_insert. done.
Qed.

(** X9. [disconnect()] does not tell the reconnect controller that the
    close is intended. When the connection was open and the attempt
    counter is below its maximum, the [close] event of the socket that
    [disconnect()] closed schedules a reconnect like any other close,
    and when that timer runs out the service opens a new socket and
    makes it the current one; its [open] event makes [isConnected()]
    true again. *)
Theorem X9_disconnect_is_followed_by_reconnect (s : state) (sid c : nat) :
  ws s = Some sid →
  sockets s !! sid = Some {| sk_ready := OPEN; sk_promise := c |} →
  0 ≤ reconnectAttempts s < maxReconnectAttempts s →
  url_valid s = true →
  let delay := Z.min (1000 * 2 ^ (reconnectAttempts s + 1)) 30000 in
  let s1 := step (disconnect s) (Ws_close sid) in
  let s2 := run s1 [Elapse (Z.to_N delay); Timer_fire (next_timer s)] in
  isConnected (disconnect s) = false
  ∧ reconnectTimeout s1 = Some (next_timer s)
  ∧ timers s1 !! next_timer s
    = Some {| t_delay := delay; t_due := clock s + delay; t_action := Reconnect |}
  ∧ ws s2 = Some (length (sockets s))
  ∧ sockets s2 !! length (sockets s)
    = Some {| sk_ready := CONNECTING; sk_promise := length (connects s) |}
  ∧ isConnected (step s2 (Ws_open (length (sockets s)))) = true.
Proof.
  intros Hw Hs Ha Hu delay s1 s2.
  destruct (disconnect_keeps s) as (Ea & Em & En & Ec & Eu & Ek & _ & El).
  pose proof (disconnect_open_socket s sid c Hw Hs) as Es.
  assert (Hlt : (sid < length (sockets s))%nat) by (by eapply lookup_lt_Some).
  assert (Hd : sockets (disconnect s) !! sid
               = Some {| sk_ready := CLOSING; sk_promise := c |})
    by (by rewrite Es, list_lookup_insert_eq).
  destruct (close_schedules_reconnect (disconnect s) sid _ Hd)
    as (Hr1 & Ht1 & Hc1 & Hu1 & Hk1 & Hl1); [done|lia|].
  fold s1 in Hr1, Ht1, Hc1, Hu1, Hk1, Hl1.
  rewrite Ea, En, Ec in Ht1. fold delay in Ht1.
  rewrite En in Hr1. rewrite Ec in Hc1. rewrite Eu in Hu1.
  rewrite Ek in Hk1. rewrite El in Hl1.
  assert (H0 : 0 ≤ delay).
  { subst delay. apply Z.min_glb; [|lia].
    apply Z.mul_nonneg_nonneg; [lia|]. apply Z.pow_nonneg. lia. }
  assert (Ht1' : timers s1 !! next_timer s
                 = Some {| t_delay := delay; t_due := clock s + delay;
                           t_action := Reconnect |})
    by (rewrite Ht1; apply lookup_insert_eq).
  destruct (reconnect_timer_fires s1 (next_timer s) _ (Z.to_N delay) Ht1' eq_refl)
    as (Hw2 & Hs2 & _ & _).
  { simpl. rewrite Hc1, Z2N.id by done. lia. }
  { congruence. }
  fold s2 in Hw2, Hs2. rewrite Hl1 in Hw2. rewrite Hk1 in Hs2.
  assert (Hs2' : sockets s2 !! length (sockets s)
                 = Some {| sk_ready := CONNECTING;
                           sk_promise := length (connects s) |}).
  { rewrite Hs2. apply list_lookup_middle. by rewrite Hl1. }
  split; [|split; [done|split; [done|split; [done|split; [done|]]]]].
  - unfold isConnected.
    by destruct (disconnect_fields s) as (_ & _ & _ & -> & _).
  - apply (open_current_socket s2 _ _ Hw2 Hs2').
Qed.

Lemma X9_witness :
  let s := run (init true) [Call_connect; Ws_open 0] in
  let s1 := step (disconnect s) (Ws_close 0) in
  let s2 := run s1 [Elapse 2000; Timer_fire 1] in
  isConnected s = true
  ∧ isConnected (disconnect s) = false
  ∧ isConnected (step s2 (Ws_open 1)) = true.
Proof.
  split; [reflexivity|].
  destruct (X9_disconnect_is_followed_by_reconnect
              (run (init true) [Call_connect; Ws_open 0]) 0 0)
    as (H1 & _ & _ & _ & _ & H2).
  - reflexivity.
  - reflexivity.
  - by vm_compute.
  - reflexivity.
  - split; [exact H1|exact H2].
Defined.

(** X10. [disconnect()] is idempotent: a second call finds nothing left
    to cancel, clear or close and returns the state unchanged. *)
Theorem X10_disconnect_idempotent (s : state) :
  disconnect (disconnect s) = disconnect s.
Proof.
  destruct (disconnect_fields s) as (Ep & Es & Er & Ew & _ & _).
  set (d := disconnect s) in *.
  unfold disconnect at 1. rewrite Er. simpl. rewrite Ew.
  destruct d. simpl in *. by subst.
Qed.

(** X11. The subscription table is local and does not depend on the
    connection. A subscription method registers its callback whether or
    not the request it then sends is accepted; subscribing or
    unsubscribing one event leaves the callbacks of the other events
    alone; unsubscribing an event that has no callback leaves the table
    as it is; and apart from the six subscription methods only
    [disconnect()], which empties it, changes the table. *)
Theorem X11_subscription_table (s : state) (e : event) (name : string) :
  (∀ cb, subscription_of e = Some (name, cb) →
         subscriptions (step s e) !! name = Some cb)
  ∧ (unsubscribes_from e = Some name →
     subscriptions (step s e) !! name = None
     ∧ (subscriptions s !! name = None →
        subscriptions (step s e) = subscriptions s))
  ∧ (subscribes_to e ≠ Some name → unsubscribes_from e ≠ Some name →
     e ≠ Call_disconnect →
     subscriptions (step s e) !! name = subscriptions s !! name)
  ∧ (subscribes_to e = None → unsubscribes_from e = None →
     e ≠ Call_disconnect →
     subscriptions (step s e) = subscriptions s)
  ∧ subscriptions (step s Call_disconnect) = ∅.
Proof.
  rewrite !subscriptions_step. repeat apply conj.
  - intros cb H. destruct e; try discriminate H; injection H as <- <-;
      apply lookup_insert_eq.
  - intros H. destruct e; try discriminate H; injection H as <-;
      (split; [apply lookup_delete_eq|apply delete_id]).
  - intros H1 H2 H3. unfold subscribes_to in H1.
    destruct e; simpl in *; try done;
      try (apply lookup_insert_ne; congruence);
      try (apply lookup_delete_ne; congruence).
  - intros H1 H2 H3. by destruct e.
  - done.
Qed.

Lemma X11_witness :
  let s := step (init true) (Call_subscribeToLogs 9) in
  isConnected (init true) = false
  ∧ subscriptions s !! "logs" = Some 9%nat
  ∧ subscriptions (step s Call_unsubscribeFromAlerts) = subscriptions s.
Proof.
  split; [reflexivity|].
  destruct (X11_subscription_table (init true) (Call_subscribeToLogs 9) "logs")
    as (H1 & _).
  split; [by apply H1|].
  destruct (X11_subscription_table (step (init true) (Call_subscribeToLogs 9))
              Call_unsubscribeFromAlerts "alerts") as (_ & H2 & _).
  destruct (H2 eq_refl) as [_ H3]. apply H3. reflexivity.
Defined.

(** X12. What [connect()] does to the sockets. With a URL the
    constructor refuses, the promise is rejected at once and neither the
    sockets nor the current socket change. Otherwise one new socket, in
    state CONNECTING, becomes the current one and every socket that
    existed before is left exactly as it was: a socket that was open
    stays open and is not closed. [isConnected()] is false until the new
    socket's [open] event, which fulfils the promise; an [error] event
    after that leaves the promise fulfilled, an [error] event before it
    rejects the promise. *)
Theorem X12_connect (s : state) :
  let c := length (connects s) in
  let sid := length (sockets s) in
  let s1 := step s Call_connect in
  (url_valid s = false →
     sockets s1 = sockets s ∧ ws s1 = ws s
     ∧ connects s1
       = connects s ++ [{| c_state := Rejected ConstructorThrew;
                           c_caught := false |}])
  ∧ (url_valid s = true →
     sockets s1 = sockets s ++ [{| sk_ready := CONNECTING; sk_promise := c |}]
     ∧ ws s1 = Some sid
     ∧ isConnected s1 = false
     ∧ connects s1 = connects s ++ [{| c_state := Pending; c_caught := false |}]
     ∧ isConnected (step s1 (Ws_open sid)) = true
     ∧ connects (step s1 (Ws_open sid)) !! c
       = Some {| c_state := Fulfilled None; c_caught := false |}
     ∧ connects (step (step s1 (Ws_open sid)) (Ws_error sid)) !! c
       = Some {| c_state := Fulfilled None; c_caught := false |}
     ∧ connects (step s1 (Ws_error sid)) !! c
       = Some {| c_state := Rejected (ErrorEvent sid); c_caught := false |}).
Proof.
  intros c sid s1.
  assert (Hinv : url_valid s = false →
    s1 = set_connects
           (connects s ++ [{| c_state := Rejected ConstructorThrew;
                              c_caught := false |}]) s).
  { intros Hu. subst s1. simpl. unfold connect. simpl. rewrite Hu.
    unfold reject_connect. simpl.
    rewrite list_lookup_middle by done. simpl.
    by rewrite insert_app_r_alt, Nat.sub_diag. }
  assert (Hval : url_valid s = true →
    s1 = set_ws (Some sid)
           (set_sockets (sockets s ++ [{| sk_ready := CONNECTING; sk_promise := c |}])
              (set_connects (connects s ++ [{| c_state := Pending;
                                               c_caught := false |}]) s))).
  { intros Hu. subst s1. simpl. unfold connect. simpl. by rewrite Hu. }
  split.
  - intros Hu. by rewrite (Hinv Hu).
  - intros Hu. specialize (Hval Hu).
    assert (Hs1 : sockets s1 !! sid
                  = Some {| sk_ready := CONNECTING; sk_promise := c |})
      by (rewrite Hval; simpl; by apply list_lookup_middle).
    assert (Hc1 : connects s1 !! c
                  = Some {| c_state := Pending; c_caught := false |})
      by (rewrite Hval; simpl; by apply list_lookup_middle).
    assert (Hw1 : ws s1 = Some sid) by (by rewrite Hval).
    assert (Hopen : connects (step s1 (Ws_open sid))
                    = <[c := {| c_state := Fulfilled None; c_caught := false |}]>
                        (connects s1)
                    ∧ sockets (step s1 (Ws_open sid))
                      = <[sid := {| sk_ready := OPEN; sk_promise := c |}]>
                          (sockets s1)).
    { simpl. rewrite Hs1. unfold onopen, resolve_connect, set_ready. simpl.
      rewrite Hs1. simpl. by rewrite Hc1. }
    destruct Hopen as [Eo1 Eo2].
    assert (Hlc : (c < length (connects s1))%nat) by (by eapply lookup_lt_Some).
    assert (Hls : (sid < length (sockets s1))%nat) by (by eapply lookup_lt_Some).
    repeat apply conj.
    + by rewrite Hval.
    + done.
    + unfold isConnected. by rewrite Hw1, Hs1.
    + by rewrite Hval.
    + by apply open_current_socket with c.
    + by rewrite Eo1, list_lookup_insert_eq.
    + assert (Hs2 : sockets (step s1 (Ws_open sid)) !! sid
                    = Some {| sk_ready := OPEN; sk_promise := c |})
        by (by rewrite Eo2, list_lookup_insert_eq).
      assert (Hc2 : connects (step s1 (Ws_open sid)) !! c
                    = Some {| c_state := Fulfilled None; c_caught := false |})
        by (by rewrite Eo1, list_lookup_insert_eq).
      remember (step s1 (Ws_open sid)) as s2 eqn:E2. clear E2.
      simpl. rewrite Hs2. unfold onerror, reject_connect. simpl.
      by rewrite Hc2.
    + simpl. rewrite Hs1. unfold onerror, reject_connect. simpl.
      rewrite Hc1. simpl. by rewrite list_lookup_insert_eq.
Qed.

Lemma X12_witness :
  let s := run (init true) [Call_connect; Ws_open 0] in
  isConnected s = true
  ∧ sockets (step s Call_connect)
    = [{| sk_ready := OPEN; sk_promise := 0 |};
       {| sk_ready := CONNECTING; sk_promise := 1 |}]
  ∧ isConnected (step s Call_connect) = false.
Proof.
  split; [reflexivity|].
  destruct (X12_connect (run (init true) [Call_connect; Ws_open 0]))
    as (_ & H).
  destruct H as (Hs & _ & Hc & _); [reflexivity|].
  split; [exact Hs|exact Hc].
Defined.

(** ** The components that call the service *)

Lemma slice_last_length {A : Type} (n : nat) (l : list A) :
  length (slice_last n l) = (length l `min` n)%nat.
Proof. unfold slice_last. rewrite length_drop. lia. Qed.

Lemma slice_last_short {A : Type} (n : nat) (l : list A) :
  (length l ≤ n)%nat → slice_last n l = l.
Proof.
  intros H. unfold slice_last. by replace (length l - n)%nat with 0%nat by lia.
Qed.

Lemma slice_last_snoc {A : Type} (n : nat) (l : list A) (x : A) :
  (0 < n)%nat → slice_last n (slice_last n l ++ [x]) = slice_last n (l ++ [x]).
Proof.
  intros Hn. destruct (decide (length l ≤ n)%nat) as [Hle|Hgt].
  - by rewrite (slice_last_short n l).
  - unfold slice_last at 1 3.
    rewrite !length_app, slice_last_length. simpl.
    replace (length l `min` n + 1 - n)%nat with 1%nat by lia.
    replace (length l + 1 - n)%nat with (S (length l - n)) by lia.
    unfold slice_last.
    rewrite (drop_app_le l [x] (S (length l - n))) by lia.
    rewrite drop_app_le by (rewrite length_drop; lia).
    by rewrite drop_drop, Nat.add_1_r.
Qed.

(** X13. The chart keeps a sliding window of at most 50 points. Each
    update appends the new point and then keeps the last 50: the new
    length is [min (old length + 1) 50], the new point is the last one,
    the older points keep their order, and after any number of updates
    starting from an empty chart the chart holds exactly the last 50
    points received. *)
Theorem X13_chart_window (timeStr : string) (cpu_percent memory_percent : Q)
    (prev : list App.chart_point) :
  let pt := {| App.time := timeStr; App.cpu := cpu_percent;
               App.memory := memory_percent |} in
  let newData := App.handleSystemStatsUpdate timeStr cpu_percent
                   memory_percent prev in
  length newData = (S (length prev) `min` 50)%nat
  ∧ last newData = Some pt
  ∧ newData `suffix_of` (prev ++ [pt])
  ∧ ∀ pts : list App.chart_point,
      foldl (λ acc p, App.handleSystemStatsUpdate (App.time p) (App.cpu p)
                        (App.memory p) acc) [] pts
      = slice_last 50 pts.
Proof.
  intros pt newData. subst newData. unfold App.handleSystemStatsUpdate.
  fold pt. repeat apply conj.
  - rewrite slice_last_length, length_app. simpl. lia.
  - unfold slice_last. rewrite length_app. simpl.
    rewrite drop_app_le by lia. apply last_snoc.
  - unfold slice_last. apply suffix_drop.
  - intros pts.
    assert (H : ∀ l : list App.chart_point,
      foldl (λ acc p, slice_last 50
                        (acc ++ [{| App.time := App.time p; App.cpu := App.cpu p;
                                    App.memory := App.memory p |}]))
            (slice_last 50 l) pts
      = slice_last 50 (l ++ pts)).
    { induction pts as [|p pts IH]; intros l; simpl.
      - by rewrite app_nil_r.
      - replace {| App.time := App.time p; App.cpu := App.cpu p;
                   App.memory := App.memory p |} with p by (by destruct p).
        rewrite slice_last_snoc by lia. rewrite IH.
        by rewrite <- app_assoc. }
    apply (H []).
Qed.

Lemma filter_from_dismiss {A : Type} (index k : nat) (l : list A) :
  filter_from k (λ _ i, negb (i =? index)%nat) l
  = if (index <? k)%nat then l else delete (index - k)%nat l.
Proof.
  revert k. induction l as [|x l IH]; intros k; simpl.
  - by destruct (index <? k)%nat.
  - rewrite IH. destruct (Nat.eqb_spec k index) as [->|Hne]; simpl.
    + replace (index <? S index)%nat with true
        by (symmetry; apply Nat.ltb_lt; lia).
      replace (index <? index)%nat with false
        by (symmetry; apply Nat.ltb_ge; lia).
      by rewrite Nat.sub_diag.
    + destruct (Nat.ltb_spec index k) as [Hlt|Hge].
      * by replace (index <? S k)%nat with true
          by (symmetry; apply Nat.ltb_lt; lia).
      * replace (index <? S k)%nat with false
          by (symmetry; apply Nat.ltb_ge; lia).
        replace (index - k)%nat with (S (index - S k)) by lia. done.
Qed.

(** X14. Dismissing an alert removes the alert at that position and
    nothing else: the alerts before it keep their positions, the alerts
    after it move up by one, and an index beyond the end of the list
    leaves the list as it is. *)
Theorem X14_dismiss_alert {Alert : Type} (index : nat) (prev : list Alert) :
  App.handleDismissAlert index prev = delete index prev
  ∧ (∀ i, (i < index)%nat →
          App.handleDismissAlert index prev !! i = prev !! i)
  ∧ (∀ i, (index ≤ i)%nat →
          App.handleDismissAlert index prev !! i = prev !! S i)
  ∧ ((index < length prev)%nat →
     length (App.handleDismissAlert index prev) = (length prev - 1)%nat)
  ∧ ((length prev ≤ index)%nat → App.handleDismissAlert index prev = prev).
Proof.
  assert (E : App.handleDismissAlert index prev = delete index prev).
  { unfold App.handleDismissAlert, array_filter.
    rewrite filter_from_dismiss. simpl. by rewrite Nat.sub_0_r. }
  rewrite E. repeat apply conj; try done.
  - intros i Hi. by apply list_lookup_delete_lt.
  - intros i Hi. by apply list_lookup_delete_ge.
  - intros Hi. apply length_delete. by apply lookup_lt_is_Some_2.
  - intros Hi. clear E. revert index Hi. induction prev as [|x l IH]; intros [|i] Hi;
      simpl in *; try done; try lia. f_equal. apply IH. lia.
Qed.

Lemma X14_witness :
  App.handleDismissAlert 1 ["cpu"; "memory"; "disk"] !! 1%nat = Some "disk"
  ∧ App.handleDismissAlert 7 ["cpu"; "memory"; "disk"] = ["cpu"; "memory"; "disk"].
Proof.
  destruct (X14_dismiss_alert 1 ["cpu"; "memory"; "disk"]) as (_ & _ & H & _).
  destruct (X14_dismiss_alert 7 ["cpu"; "memory"; "disk"]) as (_ & _ & _ & _ & H').
  split.
  - rewrite (H 1%nat); [reflexivity|lia].
  - apply H'. simpl. lia.
Defined.

(** X15. A process name is shown with at most 23 code units. A name of
    at most 20 code units is shown as it is; a longer one is cut to its
    first 20 code units followed by three full stops. The first 20 code
    units are always those of the name, and formatting a formatted name
    changes nothing. *)
Theorem X15_formatProcessName (name : list N) :
  (length (ProcessesPanel.formatProcessName name) ≤ 23)%nat
  ∧ ((length name ≤ 20)%nat → ProcessesPanel.formatProcessName name = name)
  ∧ ((20 < length name)%nat →
     ProcessesPanel.formatProcessName name = take 20 name ++ [46; 46; 46]%N
     ∧ length (ProcessesPanel.formatProcessName name) = 23%nat)
  ∧ take 20 (ProcessesPanel.formatProcessName name) = take 20 name
  ∧ ProcessesPanel.formatProcessName (ProcessesPanel.formatProcessName name)
    = ProcessesPanel.formatProcessName name.
Proof.
  assert (Elong : ∀ l : list N, (20 < length l)%nat →
    ProcessesPanel.formatProcessName l = take 20 l ++ [46; 46; 46]%N).
  { intros l H. unfold ProcessesPanel.formatProcessName.
    by replace (20 <? length l)%nat with true
      by (symmetry; apply Nat.ltb_lt; lia). }
  assert (Eshort : ∀ l : list N, (length l ≤ 20)%nat →
    ProcessesPanel.formatProcessName l = l).
  { intros l H. unfold ProcessesPanel.formatProcessName.
    by replace (20 <? length l)%nat with false
      by (symmetry; apply Nat.ltb_ge; lia). }
  destruct (decide (20 < length name)%nat) as [Hlt|Hge].
  - assert (Hl : length (take 20 name ++ [46; 46; 46]%N) = 23%nat).
    { rewrite length_app, length_take.
      change (length [46; 46; 46]%N) with 3%nat. lia. }
    assert (Ht : take 20 (take 20 name ++ [46; 46; 46]%N) = take 20 name).
    { rewrite take_app_le by (rewrite length_take; lia). by rewrite take_take. }
    rewrite (Elong name Hlt). repeat apply conj.
    + lia.
    + intros H. lia.
    + done.
    + exact Ht.
    + rewrite Elong by lia. by rewrite Ht.
  - rewrite !(Eshort name) by lia. repeat apply conj; try done; lia.
Qed.

Lemma X15_witness :
  let name := [112; 121; 116; 104; 111; 110]%N in
  ProcessesPanel.formatProcessName name = name
  ∧ length (ProcessesPanel.formatProcessName (name ++ name ++ name ++ name))
    = 23%nat.
Proof.
  destruct (X15_formatProcessName [112; 121; 116; 104; 111; 110]%N)
    as (_ & H & _).
  destruct (X15_formatProcessName
              ([112; 121; 116; 104; 111; 110]%N ++ [112; 121; 116; 104; 111; 110]%N
               ++ [112; 121; 116; 104; 111; 110]%N
               ++ [112; 121; 116; 104; 111; 110]%N)) as (_ & _ & H' & _).
  split.
  - apply H. simpl. lia.
  - apply H'. simpl. lia.
Defined.

(** X16. A percentage and the bar drawn next to it always get the same
    colour. In the system overview both are red from 90 up, yellow from
    70 up and green below; in the process table both are red from 50 up,
    yellow from 25 up and green below, and a process whose percentage is
    missing counts as 0 and is green. *)
Theorem X16_colours_agree (p : Q) :
  (((90 <= p)%Q
    ∧ SystemOverview.getUsageColor p = "text-red-500"
    ∧ SystemOverview.getProgressColor p = "bg-red-500")
   ∨ ((70 <= p)%Q ∧ ¬ (90 <= p)%Q
      ∧ SystemOverview.getUsageColor p = "text-yellow-500"
      ∧ SystemOverview.getProgressColor p = "bg-yellow-500")
   ∨ (¬ (70 <= p)%Q
      ∧ SystemOverview.getUsageColor p = "text-green-500"
      ∧ SystemOverview.getProgressColor p = "bg-green-500"))
  ∧ (((50 <= p)%Q
      ∧ ProcessesPanel.getUsageColor p = "text-red-600"
      ∧ ProcessesPanel.bar_color p = "bg-red-500")
     ∨ ((25 <= p)%Q ∧ ¬ (50 <= p)%Q
        ∧ ProcessesPanel.getUsageColor p = "text-yellow-600"
        ∧ ProcessesPanel.bar_color p = "bg-yellow-500")
     ∨ (¬ (25 <= p)%Q
        ∧ ProcessesPanel.getUsageColor p = "text-green-600"
        ∧ ProcessesPanel.bar_color p = "bg-green-500"))
  ∧ ProcessesPanel.getUsageColor (ProcessesPanel.or_zero None) = "text-green-600"
  ∧ ProcessesPanel.bar_color (ProcessesPanel.or_zero None) = "bg-green-500".
Proof.
  assert (Hb : ∀ a, if Qle_bool a p then (a <= p)%Q else ¬ (a <= p)%Q).
  { intros a. destruct (Qle_bool a p) eqn:E.
    - by apply Qle_bool_iff.
    - intros H%Qle_bool_iff. congruence. }
  unfold SystemOverview.getUsageColor, SystemOverview.getProgressColor,
    ProcessesPanel.getUsageColor, ProcessesPanel.bar_color.
  pose proof (Hb 90%Q) as H90. pose proof (Hb 70%Q) as H70.
  pose proof (Hb 50%Q) as H50. pose proof (Hb 25%Q) as H25.
  split; [|split; [|split; reflexivity]].
  - destruct (Qle_bool 90 p); [by left|].
    destruct (Qle_bool 70 p); [right; by left|right; by right].
  - destruct (Qle_bool 50 p); [by left|].
    destruct (Qle_bool 25 p); [right; by left|right; by right].
Qed.

Lemma optional_member_lookup (k k' : string) (v : option string)
    (rest : list (string * json)) :
  member k (optional_member k' v ++ rest)
  = match v with
    | Some x => if String.eqb k k' then Some (JStr x) else member k rest
    | None => member k rest
    end.
Proof. by destruct v. Qed.

Lemma or_undefined_nonempty (v x : string) :
  LogsPanel.or_undefined v = Some x → x = v ∧ v ≠ "".
Proof.
  unfold LogsPanel.or_undefined.
  destruct (String.eqb_spec v ""); [done|]. by intros [= <-].
Qed.

(** X17. What a log search asks the server. With the connection open,
    [handleSearch] leads to exactly one [get_logs] request with
    [limit] 100 and [hours_back] 24; the level filter and the search
    term are members of the params only when they are not empty, so an
    empty string is never sent as a filter; and [clearFilters] empties
    both fields and asks with [limit] and [hours_back] alone. *)
Theorem X17_log_search_request (p : LogsPanel.panel) (s : state) (sid : nat) :
  open_socket s = Some sid →
  (∃ params,
     sent (App.handleLogsRefresh (LogsPanel.handleSearch p) s).2
     = sent s ++ [(sid, {| req_id := requestId s + 1; req_method := "get_logs";
                           req_params := JObj params |})]
     ∧ member "limit" params = Some (JNum 100)
     ∧ member "hours_back" params = Some (JNum 24)
     ∧ member "level_filter" params
       = JStr <$> LogsPanel.or_undefined (LogsPanel.levelFilter p)
     ∧ member "search_term" params
       = JStr <$> LogsPanel.or_undefined (LogsPanel.searchTerm p)
     ∧ ∀ k, member k params ≠ Some (JStr ""))
  ∧ (LogsPanel.clearFilters p).1
    = {| LogsPanel.searchTerm := ""; LogsPanel.levelFilter := "" |}
  ∧ sent (App.handleLogsRefresh (LogsPanel.clearFilters p).2 s).2
    = sent s ++ [(sid, {| req_id := requestId s + 1; req_method := "get_logs";
                          req_params := JObj [("limit", JNum 100);
                                              ("hours_back", JNum 24)] |})].
Proof.
  intros Ho. unfold App.handleLogsRefresh, getLogs.
  rewrite !(sendRequest_open _ _ _ sid Ho). simpl.
  split; [|done].
  eexists. split; [reflexivity|].
  destruct (LogsPanel.or_undefined (LogsPanel.levelFilter p)) as [lf|] eqn:El;
    destruct (LogsPanel.or_undefined (LogsPanel.searchTerm p)) as [st|] eqn:Es;
    simpl; repeat split; try done;
    try (apply or_undefined_nonempty in El as [-> Hl]);
    try (apply or_undefined_nonempty in Es as [-> Hs]);
    intros k; repeat (destruct (String.eqb k _)); congruence.
Qed.

Lemma X17_witness :
  let s := run (init true) [Call_connect; Ws_open 0] in
  let p := {| LogsPanel.searchTerm := "disk"; LogsPanel.levelFilter := "" |} in
  open_socket s = Some 0%nat
  ∧ sent (App.handleLogsRefresh (LogsPanel.clearFilters p).2 s).2
    = [(0%nat, {| req_id := 1; req_method := "get_logs";
                  req_params := JObj [("limit", JNum 100);
                                      ("hours_back", JNum 24)] |})].
Proof.
  split; [reflexivity|].
  destruct (X17_log_search_request
              {| LogsPanel.searchTerm := "disk"; LogsPanel.levelFilter := "" |}
              (run (init true) [Call_connect; Ws_open 0]) 0)
    as (_ & _ & H).
  - reflexivity.
  - exact H.
Defined.

(** X18. What a change in the process panel asks the server. Changing
    the sort key or the limit updates the panel and, with the connection
    open, sends one [get_processes] request whose [limit] and [sort_by]
    are those of the panel after the change: the new value of the field
    that changed and the current value of the other. *)
Theorem X18_process_refresh_request
    (p : ProcessesPanel.panel) (s : state) (sid : nat)
    (newSortBy : string) (newLimit : Z) :
  open_socket s = Some sid →
  let request_for (q : ProcessesPanel.panel) :=
    (sid, {| req_id := requestId s + 1; req_method := "get_processes";
             req_params := JObj [("limit", JNum (ProcessesPanel.limit q));
                                 ("sort_by", JStr (ProcessesPanel.sortBy q))] |}) in
  let by_sort := ProcessesPanel.handleSortChange newSortBy p in
  let by_limit := ProcessesPanel.handleLimitChange newLimit p in
  by_sort.1 = {| ProcessesPanel.sortBy := newSortBy;
                 ProcessesPanel.limit := ProcessesPanel.limit p |}
  ∧ sent (App.handleProcessesRefresh by_sort.2.1 by_sort.2.2 s).2
    = sent s ++ [request_for by_sort.1]
  ∧ by_limit.1 = {| ProcessesPanel.sortBy := ProcessesPanel.sortBy p;
                    ProcessesPanel.limit := newLimit |}
  ∧ sent (App.handleProcessesRefresh by_limit.2.1 by_limit.2.2 s).2
    = sent s ++ [request_for by_limit.1].
Proof.
  intros Ho. simpl. unfold App.handleProcessesRefresh, getProcesses.
  by rewrite !(sendRequest_open _ _ _ sid Ho).
Qed.

Lemma X18_witness :
  let s := run (init true) [Call_connect; Ws_open 0] in
  let p := {| ProcessesPanel.sortBy := "cpu"; ProcessesPanel.limit := 10 |} in
  open_socket s = Some 0%nat
  ∧ sent (App.handleProcessesRefresh
            (ProcessesPanel.handleSortChange "memory" p).2.1
            (ProcessesPanel.handleSortChange "memory" p).2.2 s).2
    = [(0%nat, {| req_id := 1; req_method := "get_processes";
                  req_params := JObj [("limit", JNum 10);
                                      ("sort_by", JStr "memory")] |})].
Proof.
  split; [reflexivity|].
  destruct (X18_process_refresh_request
              {| ProcessesPanel.sortBy := "cpu"; ProcessesPanel.limit := 10 |}
              (run (init true) [Call_connect; Ws_open 0]) 0 "memory" 20)
    as (_ & H & _).
  - reflexivity.
  - exact H.
Defined.

(** ** Requests that get no answer *)

Lemma timer_kept (s : state) (e : event) (h : nat) (t : timer) :
  wf s → timers s !! h = Some t →
  e ≠ Timer_fire h → e ≠ Call_disconnect →
  timers (step s e) !! h = Some t.
Proof.
  intros W Ht Hf Hd.
  pose proof (wf_timer_handle s W h t Ht) as Hlt.
  destruct e; try done; crunch.
  all: rewrite ?lookup_insert_ne by lia.
  all: rewrite ?lookup_delete_ne by congruence.
  all: try done.
Qed.

Lemma settle_pendingRequests (p : nat) (o : promise) (s : state) :
  pendingRequests (settle p o s) = pendingRequests s.
Proof. crunch. Qed.

Lemma settle_settled (p : nat) (o : promise) (s : state) :
  promises s !! p = Some Pending → o ≠ Pending → settled p (settle p o s).
Proof.
  intros Hp Ho. rewrite settle_pending by done. exists o. split; [|done].
  simpl. apply list_lookup_insert_eq. by eapply lookup_lt_Some.
Qed.

Lemma handle_response_pending (message : json) (s : state) (id : Z) (p : nat) :
  wf s → pendingRequests s !! id = Some p →
  pendingRequests (handle_response message s) !! id = Some p
  ∨ settled p (handle_response message s).
Proof.
  intros W Hp. pose proof (wf_pending_promise s W id p Hp) as Hq.
  unfold handle_response. simpl.
  destruct (truthy _); [|by left].
  destruct (number_key _) as [k|]; [|by left].
  destruct (pendingRequests s !! k) as [p'|] eqn:Hk; [|by left].
  destruct (decide (k = id)) as [->|Hne].
  - right. assert (p' = p) as -> by congruence.
    unfold reject, resolve. destruct (truthy _); by apply settle_settled.
  - left. unfold reject, resolve.
    destruct (truthy _); rewrite settle_pendingRequests; simpl;
      by rewrite lookup_delete_ne.
Qed.

Lemma handleMessage_pending
    (data : option json) (s : state) (id : Z) (p : nat) :
  wf s → pendingRequests s !! id = Some p →
  pendingRequests (handleMessage data s) !! id = Some p
  ∨ settled p (handleMessage data s).
Proof.
  intros W Hp. destruct data as [message|]; [|by left].
  assert (E : handleMessage (Some message) s
              = log (console_error "Error parsing message:") s
              ∨ handleMessage (Some message) s
                = handle_notification message (handle_response message s))
    by (destruct message; auto).
  destruct E as [->| ->]; [by left|].
  destruct (handle_notification_frame message (handle_response message s))
    as [E1 E2].
  unfold settled. rewrite E1, E2. by apply handle_response_pending.
Qed.

Lemma pending_step (s : state) (e : event) (id : Z) (p : nat) :
  wf s → pendingRequests s !! id = Some p → e ≠ Call_disconnect →
  pendingRequests (step s e) !! id = Some p ∨ settled p (step s e).
Proof.
  intros W Hp Hd.
  pose proof (wf_pending_id s W id p Hp) as Hid.
  pose proof (wf_pending_promise s W id p Hp) as Hq.
  destruct e; try done.
  all: try (left; crunch; rewrite ?lookup_insert_ne by lia; done).
  - simpl. destruct (sockets s !! sid) as [[[] c]|]; try by left.
    by apply handleMessage_pending.
  - simpl. destruct (timers s !! h) as [t|] eqn:Ht; [|by left].
    destruct (t_due t <=? clock s); [|by left].
    destruct (t_action t) as [id' p'|] eqn:Ha; simpl; [|left; crunch].
    unfold request_timeout. simpl.
    destruct (pendingRequests s !! id') as [q|] eqn:Hq'; [|by left].
    destruct (decide (id' = id)) as [->|Hne].
    + right. destruct (wf_timer_request s W h t id p' Ht Ha) as (_ & _ & H).
      rewrite <- (H p Hp). unfold reject. by apply settle_settled.
    + left. unfold reject. rewrite settle_pendingRequests. simpl.
      by rewrite lookup_delete_ne.
Qed.

Lemma settled_after_step (s : state) (e : event) (p : nat) :
  settled p s → settled p (step s e).
Proof. intros (o & Hp & Ho). exists o. split; [by apply settled_step|done]. Qed.

(** While a request is not settled, its entry and its timer stay. *)
Lemma awaiting_run
    (tr : list event) (s : state) (id : Z) (p h : nat) (t : timer) :
  wf s → t_action t = RequestTimeout id p →
  pendingRequests s !! id = Some p → timers s !! h = Some t →
  Forall (λ e, e ≠ Call_disconnect) tr →
  settled p (run s tr)
  ∨ (pendingRequests (run s tr) !! id = Some p ∧ timers (run s tr) !! h = Some t).
Proof.
  intros W Ha Hp Ht Htr. revert s W Hp Ht.
  induction Htr as [|e tr He Htr IH]; intros s W Hp Ht; [by right|].
  simpl.
  assert (Hs : ∀ s0, settled p s0 → settled p (run s0 tr)).
  { intros s0 (o & Ho & Hne). exists o. split; [by apply settled_run|done]. }
  assert (Hdec : e = Timer_fire h ∨ e ≠ Timer_fire h).
  { destruct e as [| | | | | | | | | | | | | | | | |h'|];
      try (right; discriminate).
    destruct (decide (h' = h)) as [->|]; [by left|right; congruence]. }
  destruct Hdec as [->|Hne].
  - destruct (Z_lt_le_dec (clock s) (t_due t)) as [Hd|Hd].
    + rewrite (timeout_early s h t Ht Hd). by apply IH.
    + left. apply Hs.
      destruct (timeout_fires s h t id p p W Ht Ha Hp Hd) as [_ ->].
      exists (Rejected (NewError (Some (JStr "Request timeout")))).
      split; [|discriminate]. simpl. apply list_lookup_insert_eq.
      by eapply lookup_lt_Some, wf_pending_promise.
  - destruct (pending_step s e id p W Hp He) as [Hp'|Hp'].
    + apply IH; [by apply wf_step|done|by apply timer_kept].
    + left. by apply Hs.
Qed.

(** X19. Unless [disconnect()] is called, a request is settled at the
    latest when its timer runs. Every entry of the pending map has its
    timer in the queue, due no later than 10 s from now. After any
    sequence of events without [disconnect()] the request is either
    settled already or still has its entry and that same timer armed;
    so firing the timer once it is due leaves the request settled, and
    if nothing settled it before, rejected with "Request timeout" and
    without its entry. *)
Theorem X19_request_settles_unless_disconnected
    (s : state) (id : Z) (p : nat) :
  reachable s → pendingRequests s !! id = Some p →
  ∃ h t,
    timers s !! h = Some t ∧ t_action t = RequestTimeout id p
    ∧ t_due t ≤ clock s + 10000
    ∧ ∀ tr, Forall (λ e, e ≠ Call_disconnect) tr →
        let s' := run s tr in
        (settled p s'
         ∨ (pendingRequests s' !! id = Some p ∧ timers s' !! h = Some t))
        ∧ (t_due t ≤ clock s' → settled p (step s' (Timer_fire h)))
        ∧ (t_due t ≤ clock s' → pendingRequests s' !! id = Some p →
           promises (step s' (Timer_fire h)) !! p
           = Some (Rejected (NewError (Some (JStr "Request timeout"))))
           ∧ pendingRequests (step s' (Timer_fire h))
             = delete id (pendingRequests s')).
Proof.
  intros R Hp. pose proof (reachable_wf s R) as W.
  destruct (wf_pending_timer s W id p Hp) as (h & t & Ht & Ha & Hd).
  destruct (timers_bounded_reachable s R) as (_ & _ & _ & Hb).
  destruct (Hb h t Ht) as [Hdue _].
  exists h, t. split; [done|]. split; [done|]. split; [lia|].
  intros tr Htr s'.
  assert (W' : wf s') by (by apply wf_run).
  pose proof (awaiting_run tr s id p h t W Ha Hp Ht Htr) as Hs. fold s' in Hs.
  assert (Hfire : t_due t ≤ clock s' → pendingRequests s' !! id = Some p →
            promises (step s' (Timer_fire h)) !! p
            = Some (Rejected (NewError (Some (JStr "Request timeout"))))
            ∧ pendingRequests (step s' (Timer_fire h))
              = delete id (pendingRequests s')).
  { intros Hc Hp'. destruct Hs as [(o & Ho & Hne)|[_ Ht']].
    - apply (wf_pending_promise s' W') in Hp'. congruence.
    - destruct (timeout_fires s' h t id p p W' Ht' Ha Hp' Hc) as [_ ->].
      simpl. split; [|done].
      apply list_lookup_insert_eq.
      by eapply lookup_lt_Some, wf_pending_promise. }
  split; [done|]. split; [|done]. intros Hc.
  destruct Hs as [Hs|[Hp' _]]; [by apply settled_after_step|].
  destruct (Hfire Hc Hp') as [Hr _]. eexists. split; [exact Hr|discriminate].
Qed.

Lemma X19_witness :
  let s := run (init true)
             [Call_connect; Ws_open 0; Call_ping; Elapse 7000; Ws_close 0] in
  pendingRequests s !! 1 = Some 0%nat
  ∧ ∃ h, timers s !! h ≠ None
         ∧ settled 0
             (step (run s [Elapse 10000; Call_getSystemStats]) (Timer_fire h)).
Proof.
  split; [reflexivity|].
  destruct (X19_request_settles_unless_disconnected
              (run (init true)
                 [Call_connect; Ws_open 0; Call_ping; Elapse 7000; Ws_close 0])
              1 0) as (h & t & Ht & Ha & Hd & H).
  - eexists true, _. reflexivity.
  - reflexivity.
  - exists h. split; [congruence|].
    destruct (H [Elapse 10000; Call_getSystemStats]) as (_ & Hm & _).
    + repeat constructor; discriminate.
    + apply Hm.
      replace (clock (run (run (init true)
                            [Call_connect; Ws_open 0; Call_ping; Elapse 7000;
                             Ws_close 0])
                        [Elapse 10000; Call_getSystemStats]))
        with (clock (run (init true)
                       [Call_connect; Ws_open 0; Call_ping; Elapse 7000;
                        Ws_close 0]) + 10000) by (by vm_compute).
      exact Hd.
Defined.
